(** * Vex AI Assistant: the command console of [static/script.js]

    A shallow embedding of the page script: the reply area written by
    [showReply], the asynchronous [sendCmd] with its [try]/[catch]/[finally],
    the launch button's listener, the theme toggle and the listeners that
    wire them to the page's events.

    JavaScript strings are sequences of UTF-16 code units, so a string is a
    list of code units ([N]).  The values that reach the script are the
    ones [JSON.parse] builds, plus [undefined].  The parts of the platform
    the script calls ([String.prototype.trim], [JSON.parse],
    [JSON.stringify], the conversions [ToString] and [ToBoolean],
    [DOMTokenList.toggle]) are written out after ECMA-262, ECMA-404 and the
    DOM standard. *)

From Stdlib Require Import NArith List Bool Ascii String Lia PeanoNat.
From Stdlib Require Import DecimalString.
From Stdlib Require Import ZArith QArith.
Import ListNotations.

#[local] Set Warnings "-register-all".

Local Open Scope N_scope.
Local Open Scope list_scope.

(* ------------------------------------------------------------------ *)
(** ** Strings *)

Module JsString.

(** A JavaScript string: its UTF-16 code units. *)
Definition jsstring := list N.

(** An ASCII literal of the script as a JavaScript string. *)
Definition lit (s : string) : jsstring :=
  List.map N_of_ascii (list_ascii_of_string s).

(** The same, with the apostrophe standing for the double quote (code unit
    34), to write JSON texts legibly. *)
Definition json_lit (s : string) : jsstring :=
  List.map (fun c => if c =? 39 then 34 else c) (lit s).

Fixpoint eqb (a b : jsstring) : bool :=
  match a, b with
  | [], [] => true
  | x :: a', y :: b' => (x =? y) && eqb a' b'
  | _, _ => false
  end.

Definition is_empty (s : jsstring) : bool :=
  match s with [] => true | _ :: _ => false end.

(** [prefix p s]: [s] starts with [p]. *)
Fixpoint prefix (p s : jsstring) : bool :=
  match p, s with
  | [], _ => true
  | x :: p', y :: s' => (x =? y) && prefix p' s'
  | _ :: _, [] => false
  end.

(** [includes s p], as [String.prototype.includes]: [p] occurs in [s]. *)
Fixpoint includes (s p : jsstring) : bool :=
  prefix p s || match s with [] => false | _ :: s' => includes s' p end.

(** ECMA-262 WhiteSpace and LineTerminator code points, the ones
    [String.prototype.trim] strips. *)
Definition isWhiteSpace (c : N) : bool :=
  (c =? 0x09) || (c =? 0x0A) || (c =? 0x0B) || (c =? 0x0C) || (c =? 0x0D)
  || (c =? 0x20) || (c =? 0xA0) || (c =? 0x1680)
  || ((0x2000 <=? c) && (c <=? 0x200A))
  || (c =? 0x2028) || (c =? 0x2029) || (c =? 0x202F) || (c =? 0x205F)
  || (c =? 0x3000) || (c =? 0xFEFF).

Fixpoint trimStart (s : jsstring) : jsstring :=
  match s with
  | [] => []
  | c :: r => if isWhiteSpace c then trimStart r else s
  end.

Definition trimEnd (s : jsstring) : jsstring := rev (trimStart (rev s)).

(** [String.prototype.trim]. *)
Definition trim (s : jsstring) : jsstring := trimEnd (trimStart s).

(** [Number::toString] of a non-negative integer: its decimal digits. *)
Definition of_N (n : N) : jsstring :=
  lit (NilEmpty.string_of_uint (N.to_uint n)).

End JsString.

Export JsString.

(* ------------------------------------------------------------------ *)
(** ** Values, and the JSON text format *)

Module Json.

(** The values the script handles: what [JSON.parse] builds, and
    [undefined].  A number keeps its lexeme: its value as a double is the
    host's business (see [Host] below).  An object keeps its members in
    source order, duplicates included; the last one wins on lookup. *)
Inductive value : Type :=
| VUndefined
| VNull
| VBool (b : bool)
| VNumber (lexeme : jsstring)
| VString (s : jsstring)
| VArray (elements : list value)
| VObject (members : list (jsstring * value)).

Inductive presult (A : Type) : Type :=
| Parsed (a : A) (rest : jsstring)
| SyntaxError
| OutOfFuel.
Arguments Parsed {A} a rest.
Arguments SyntaxError {A}.
Arguments OutOfFuel {A}.

(** JSON white space: tab, line feed, carriage return, space. *)
Definition is_ws (c : N) : bool :=
  (c =? 0x09) || (c =? 0x0A) || (c =? 0x0D) || (c =? 0x20).

Fixpoint skip_ws (s : jsstring) : jsstring :=
  match s with
  | [] => []
  | c :: r => if is_ws c then skip_ws r else s
  end.

Definition is_digit (c : N) : bool := (48 <=? c) && (c <=? 57).

Definition hex_value (c : N) : option N :=
  if is_digit c then Some (c - 48)
  else if (65 <=? c) && (c <=? 70) then Some (c - 55)
  else if (97 <=? c) && (c <=? 102) then Some (c - 87)
  else None.

Definition hex4 (a b c d : N) : option N :=
  match hex_value a, hex_value b, hex_value c, hex_value d with
  | Some x, Some y, Some z, Some w => Some (((x * 16 + y) * 16 + z) * 16 + w)
  | _, _, _, _ => None
  end.

(** The single-character escapes: quote, backslash, slash, b, f, n, r, t. *)
Definition simple_escape (c : N) : option N :=
  if c =? 34 then Some 34
  else if c =? 92 then Some 92
  else if c =? 47 then Some 47
  else if c =? 98 then Some 0x08
  else if c =? 102 then Some 0x0C
  else if c =? 110 then Some 0x0A
  else if c =? 114 then Some 0x0D
  else if c =? 116 then Some 0x09
  else None.

(** The characters of a string, after its opening quote, up to and
    including the closing one. *)
Fixpoint lex_string (acc : jsstring) (s : jsstring) : presult jsstring :=
  match s with
  | [] => SyntaxError
  | c :: r =>
      if c =? 34 then Parsed (rev acc) r
      else if c =? 92 then
        match r with
        | [] => SyntaxError
        | e :: r1 =>
            if e =? 117 then
              match r1 with
              | h1 :: h2 :: h3 :: h4 :: r2 =>
                  match hex4 h1 h2 h3 h4 with
                  | Some u => lex_string (u :: acc) r2
                  | None => SyntaxError
                  end
              | _ => SyntaxError
              end
            else
              match simple_escape e with
              | Some u => lex_string (u :: acc) r1
              | None => SyntaxError
              end
        end
      else if c <? 0x20 then SyntaxError
      else lex_string (c :: acc) r
  end.

(** The longest run of digits at the head of [s], and what follows. *)
Fixpoint lex_digits (s : jsstring) : jsstring * jsstring :=
  match s with
  | c :: r =>
      if is_digit c then let (ds, rest) := lex_digits r in (c :: ds, rest)
      else ([], s)
  | [] => ([], [])
  end.

(** int: a single 0, or a digit 1-9 followed by digits. *)
Definition lex_int (s : jsstring) : option (jsstring * jsstring) :=
  match s with
  | c :: r =>
      if c =? 48 then Some ([c], r)
      else if is_digit c then let (ds, rest) := lex_digits r in Some (c :: ds, rest)
      else None
  | [] => None
  end.

(** frac: nothing, or a dot and at least one digit. *)
Definition lex_frac (s : jsstring) : option (jsstring * jsstring) :=
  match s with
  | c :: r =>
      if c =? 46 then
        match lex_digits r with
        | ([], _) => None
        | (ds, rest) => Some (c :: ds, rest)
        end
      else Some ([], s)
  | [] => Some ([], [])
  end.

(** exp: nothing, or e/E, an optional sign and at least one digit. *)
Definition lex_exp (s : jsstring) : option (jsstring * jsstring) :=
  match s with
  | c :: r =>
      if (c =? 101) || (c =? 69) then
        let (sign, r1) :=
          match r with
          | g :: r' => if (g =? 43) || (g =? 45) then ([g], r') else ([], r)
          | [] => ([], r)
          end in
        match lex_digits r1 with
        | ([], _) => None
        | (ds, rest) => Some (c :: sign ++ ds, rest)
        end
      else Some ([], s)
  | [] => Some ([], [])
  end.

(** number: an optional minus, int, frac, exp.  The result is the lexeme. *)
Definition lex_number (s : jsstring) : presult jsstring :=
  let (sign, s0) :=
    match s with
    | c :: r => if c =? 45 then ([c], r) else ([], s)
    | [] => ([], s)
    end in
  match lex_int s0 with
  | None => SyntaxError
  | Some (i, s1) =>
      match lex_frac s1 with
      | None => SyntaxError
      | Some (f, s2) =>
          match lex_exp s2 with
          | None => SyntaxError
          | Some (e, s3) => Parsed (sign ++ i ++ f ++ e) s3
          end
      end
  end.

(** One of the three literal names. *)
Definition lex_literal (s : jsstring) : presult value :=
  if prefix (lit "true") s then Parsed (VBool true) (skipn 4 s)
  else if prefix (lit "false") s then Parsed (VBool false) (skipn 5 s)
  else if prefix (lit "null") s then Parsed VNull (skipn 4 s)
  else SyntaxError.

(** Recursive descent over the grammar of ECMA-404.  [parse_elements]
    reads the elements of an array after its bracket or a comma,
    [parse_members] the members of an object after its brace or a comma.
    Every call is made on a strictly smaller amount of fuel;
    [parse_value_fuel] below shows that the fuel [JSON_parse] gives never
    runs out. *)
Fixpoint parse_value (fuel : nat) (s : jsstring) {struct fuel} : presult value :=
  match fuel with
  | O => OutOfFuel
  | S f =>
      match skip_ws s with
      | [] => SyntaxError
      | c :: r =>
          if c =? 123 then
            match skip_ws r with
            | [] => SyntaxError
            | c' :: r' =>
                if c' =? 125 then Parsed (VObject []) r'
                else parse_members f [] r
            end
          else if c =? 91 then
            match skip_ws r with
            | [] => SyntaxError
            | c' :: r' =>
                if c' =? 93 then Parsed (VArray []) r'
                else parse_elements f [] r
            end
          else if c =? 34 then
            match lex_string [] r with
            | Parsed str rest => Parsed (VString str) rest
            | SyntaxError => SyntaxError
            | OutOfFuel => OutOfFuel
            end
          else if (c =? 45) || is_digit c then
            match lex_number (c :: r) with
            | Parsed lexeme rest => Parsed (VNumber lexeme) rest
            | SyntaxError => SyntaxError
            | OutOfFuel => OutOfFuel
            end
          else lex_literal (c :: r)
      end
  end

with parse_elements (fuel : nat) (acc : list value) (s : jsstring)
       {struct fuel} : presult value :=
  match fuel with
  | O => OutOfFuel
  | S f =>
      match parse_value f s with
      | Parsed v r =>
          match skip_ws r with
          | [] => SyntaxError
          | c :: r' =>
              if c =? 44 then parse_elements f (v :: acc) r'
              else if c =? 93 then Parsed (VArray (rev (v :: acc))) r'
              else SyntaxError
          end
      | SyntaxError => SyntaxError
      | OutOfFuel => OutOfFuel
      end
  end

with parse_members (fuel : nat) (acc : list (jsstring * value)) (s : jsstring)
       {struct fuel} : presult value :=
  match fuel with
  | O => OutOfFuel
  | S f =>
      match skip_ws s with
      | [] => SyntaxError
      | q :: r0 =>
          if q =? 34 then
            match lex_string [] r0 with
            | Parsed key r1 =>
                match skip_ws r1 with
                | [] => SyntaxError
                | colon :: r2 =>
                    if colon =? 58 then
                      match parse_value f r2 with
                      | Parsed v r3 =>
                          match skip_ws r3 with
                          | [] => SyntaxError
                          | c :: r4 =>
                              if c =? 44 then parse_members f ((key, v) :: acc) r4
                              else if c =? 125
                                   then Parsed (VObject (rev ((key, v) :: acc))) r4
                              else SyntaxError
                          end
                      | SyntaxError => SyntaxError
                      | OutOfFuel => OutOfFuel
                      end
                    else SyntaxError
                end
            | SyntaxError => SyntaxError
            | OutOfFuel => OutOfFuel
            end
          else SyntaxError
      end
  end.

Definition parse_fuel (text : jsstring) : nat := 2 * List.length text + 2.

(** [JSON.parse(text)]: the value, or [None] when it throws a SyntaxError.
    (Without a reviver.) *)
Definition JSON_parse (text : jsstring) : option value :=
  match parse_value (parse_fuel text) text with
  | Parsed v rest => if is_empty (skip_ws rest) then Some v else None
  | SyntaxError | OutOfFuel => None
  end.

(** *** [JSON.stringify] of a string (QuoteJSONString) *)

Definition hex_digit (n : N) : N := if n <? 10 then 48 + n else 87 + n.

(** UnicodeEscape: backslash, u and four lower-case hexadecimal digits. *)
Definition unicode_escape (c : N) : jsstring :=
  [92; 117; hex_digit ((c / 4096) mod 16); hex_digit ((c / 256) mod 16);
   hex_digit ((c / 16) mod 16); hex_digit (c mod 16)].

Definition is_high_surrogate (c : N) : bool := (0xD800 <=? c) && (c <=? 0xDBFF).
Definition is_low_surrogate (c : N) : bool := (0xDC00 <=? c) && (c <=? 0xDFFF).

Definition quote_unit (c : N) : jsstring :=
  if c =? 0x08 then [92; 98]
  else if c =? 0x09 then [92; 116]
  else if c =? 0x0A then [92; 110]
  else if c =? 0x0C then [92; 102]
  else if c =? 0x0D then [92; 114]
  else if c =? 34 then [92; 34]
  else if c =? 92 then [92; 92]
  else if (c <? 0x20) || is_high_surrogate c || is_low_surrogate c
       then unicode_escape c
  else [c].

(** The code points of the string one by one: a surrogate pair passes
    through, a lone surrogate is escaped. *)
Fixpoint quote_units (s : jsstring) : jsstring :=
  match s with
  | [] => []
  | c :: r =>
      if is_high_surrogate c then
        match r with
        | d :: r' =>
            if is_low_surrogate d then c :: d :: quote_units r'
            else quote_unit c ++ quote_units r
        | [] => quote_unit c
        end
      else quote_unit c ++ quote_units r
  end.

Definition QuoteJSONString (s : jsstring) : jsstring :=
  [34] ++ quote_units s ++ [34].

End Json.

Export Json.

(* ------------------------------------------------------------------ *)
(** ** The host: what the engine decides *)

(** An exception value: an Error object (or a DOMException, which has the
    same two properties).  These are what [fetch], [Response.text] and
    [Response.json] reject with, and what the conversions throw. *)
Record Error : Type := mkError { name : jsstring; message : jsstring }.

(** What ECMA-262 leaves to the implementation, or what needs the double
    behind a number: the text of the built-in exceptions' messages, and
    [Number::toString] and [ToBoolean] of a JSON number given by its lexeme.
    Every statement below holds for every host. *)
Record Host : Type := mkHost {
  Number_toString : jsstring -> jsstring;
  Number_toBoolean : jsstring -> bool;
  (** the TypeError of OrdinaryToPrimitive, when an object has no callable
      [toString] or [valueOf] that returns a primitive *)
  message_ToPrimitive : jsstring;
  (** the TypeError of reading the named property of [null] *)
  message_GetOfNull : jsstring -> jsstring;
  (** the SyntaxError of [JSON.parse] on the given text *)
  message_JSON : jsstring -> jsstring
}.

(** A completion: the normal result, or a thrown exception. *)
Inductive completion (A : Type) : Type :=
| Normal (a : A)
| Throw (e : Error).
Arguments Normal {A} a.
Arguments Throw {A} e.

Definition bind {A B : Type} (c : completion A) (k : A -> completion B)
  : completion B :=
  match c with
  | Normal a => k a
  | Throw e => Throw e
  end.

Notation "x <- c ;; k" := (bind c (fun x => k))
  (at level 61, c at next level, right associativity).

(* ------------------------------------------------------------------ *)
(** ** Conversions and property reads *)

Section Conversions.

Variable H : Host.

(** Own property lookup; of two members with the same key the later one
    is the property's value, as [JSON.parse] overwrites. *)
Fixpoint lookup (key : jsstring) (members : list (jsstring * value))
  : option value :=
  match members with
  | [] => None
  | (k, v) :: rest =>
      match lookup key rest with
      | Some later => Some later
      | None => if JsString.eqb key k then Some v else None
      end
  end.

Definition has_own (key : jsstring) (members : list (jsstring * value)) : bool :=
  match lookup key members with Some _ => true | None => false end.

(** [ToString] without the exception's payload: [None] is the TypeError of
    OrdinaryToPrimitive.  A parsed object is an ordinary object: its
    inherited [toString] gives "[object Object]", unless a member of its
    own named [toString] hides it; no JSON value is callable, and the
    inherited [valueOf] returns the object itself, so the conversion then
    throws.  An array is joined with commas, [null] giving the empty
    string. *)
Fixpoint ToString_opt (v : value) : option jsstring :=
  match v with
  | VUndefined => Some (lit "undefined")
  | VNull => Some (lit "null")
  | VBool true => Some (lit "true")
  | VBool false => Some (lit "false")
  | VNumber lexeme => Some (Number_toString H lexeme)
  | VString s => Some s
  | VArray elements =>
      let element (x : value) : option jsstring :=
        match x with
        | VUndefined | VNull => Some []
        | _ => ToString_opt x
        end in
      (fix join (l : list value) : option jsstring :=
         match l with
         | [] => Some []
         | x :: rest =>
             match element x, rest with
             | None, _ => None
             | Some a, [] => Some a
             | Some a, _ :: _ =>
                 match join rest with
                 | Some b => Some (a ++ lit "," ++ b)
                 | None => None
                 end
             end
         end) elements
  | VObject members =>
      if has_own (lit "toString") members then None
      else Some (lit "[object Object]")
  end.

Definition TypeError_ToPrimitive : Error :=
  mkError (lit "TypeError") (message_ToPrimitive H).

Definition ToString (v : value) : completion jsstring :=
  match ToString_opt v with
  | Some s => Normal s
  | None => Throw TypeError_ToPrimitive
  end.

Definition ToBoolean (v : value) : bool :=
  match v with
  | VUndefined | VNull => false
  | VBool b => b
  | VNumber lexeme => Number_toBoolean H lexeme
  | VString s => negb (is_empty s)
  | VArray _ | VObject _ => true
  end.

(** Reading a property that no prototype defines (the script reads
    [reply] and [status]) off a value that is neither [null] nor
    [undefined]: an object's own member, else [undefined]. *)
Definition own_or_undefined (v : value) (key : jsstring) : value :=
  match v with
  | VObject members =>
      match lookup key members with Some x => x | None => VUndefined end
  | _ => VUndefined
  end.

(** [v.key] *)
Definition Get (v : value) (key : jsstring) : completion value :=
  match v with
  | VUndefined | VNull =>
      Throw (mkError (lit "TypeError") (message_GetOfNull H key))
  | _ => Normal (own_or_undefined v key)
  end.

(** [v?.key] *)
Definition optional_Get (v : value) (key : jsstring) : value :=
  match v with
  | VUndefined | VNull => VUndefined
  | _ => own_or_undefined v key
  end.

(** [a ?? b] *)
Definition coalesce (a b : value) : value :=
  match a with
  | VUndefined | VNull => b
  | _ => a
  end.

(** [a || b] *)
Definition or_else (a b : value) : value := if ToBoolean a then a else b.

(** [err.message || err], then converted by the string concatenation.
    With an empty message [Error.prototype.toString] returns the name. *)
Definition message_or_err (err : Error) : jsstring :=
  if is_empty (message err) then name err else message err.

End Conversions.

(* ------------------------------------------------------------------ *)
(** ** The page *)

Module Dom.

(** [element.classList]: the element's class tokens, in order. *)
Definition classList := list jsstring.

Definition contains (cl : classList) (token : jsstring) : bool :=
  existsb (JsString.eqb token) cl.

(** [classList.toggle(token)]: remove the token when it is there, append
    it otherwise. *)
Definition toggle (cl : classList) (token : jsstring) : classList :=
  if contains cl token
  then filter (fun t => negb (JsString.eqb token t)) cl
  else cl ++ [token].

(** The elements the script looks up on DOMContentLoaded, with the parts of
    them it reads or writes. *)
Record Page : Type := mkPage {
  input_value : jsstring;           (* input.value *)
  input_focused : bool;             (* input is the active element *)
  sendBtn_disabled : bool;          (* sendBtn.disabled *)
  replyEl_textContent : jsstring;   (* replyEl.textContent *)
  replyEl_color : jsstring;         (* replyEl.style.color, as assigned *)
  body_classList : classList;       (* document.body.classList *)
  hero_classList : classList        (* hero.classList *)
}.

Definition set_input_value (v : jsstring) (p : Page) : Page :=
  mkPage v (input_focused p) (sendBtn_disabled p) (replyEl_textContent p)
         (replyEl_color p) (body_classList p) (hero_classList p).

Definition set_input_focused (b : bool) (p : Page) : Page :=
  mkPage (input_value p) b (sendBtn_disabled p) (replyEl_textContent p)
         (replyEl_color p) (body_classList p) (hero_classList p).

Definition set_sendBtn_disabled (b : bool) (p : Page) : Page :=
  mkPage (input_value p) (input_focused p) b (replyEl_textContent p)
         (replyEl_color p) (body_classList p) (hero_classList p).

Definition set_replyEl_textContent (s : jsstring) (p : Page) : Page :=
  mkPage (input_value p) (input_focused p) (sendBtn_disabled p) s
         (replyEl_color p) (body_classList p) (hero_classList p).

Definition set_replyEl_color (c : jsstring) (p : Page) : Page :=
  mkPage (input_value p) (input_focused p) (sendBtn_disabled p)
         (replyEl_textContent p) c (body_classList p) (hero_classList p).

Definition set_body_classList (cl : classList) (p : Page) : Page :=
  mkPage (input_value p) (input_focused p) (sendBtn_disabled p)
         (replyEl_textContent p) (replyEl_color p) cl (hero_classList p).

Definition set_hero_classList (cl : classList) (p : Page) : Page :=
  mkPage (input_value p) (input_focused p) (sendBtn_disabled p)
         (replyEl_textContent p) (replyEl_color p) (body_classList p) cl.

End Dom.

Export Dom.

(* ------------------------------------------------------------------ *)
(** ** The network *)

Module Net.

(** What [fetch] is called with. *)
Record Request : Type := mkRequest {
  url : jsstring;
  method : jsstring;
  headers : list (jsstring * jsstring);
  body : option jsstring
}.

(** A response whose head has arrived.  [payload] is what reading the body
    to its end gives: the decoded text, or the exception that [res.text()]
    and [r.json()] reject with when the transfer breaks. *)
Record Response : Type := mkResponse {
  status : N;
  statusText : jsstring;
  payload : completion jsstring
}.

(** [res.ok]: the status is in the range 200 to 299. *)
Definition ok (res : Response) : bool :=
  (200 <=? status res) && (status res <=? 299).

(** How the promise of [fetch] settles. *)
Inductive outcome : Type :=
| Fulfilled (res : Response)
| Rejected (err : Error).

(** [await] on the promise of [fetch]. *)
Definition await_fetch (o : outcome) : completion Response :=
  match o with
  | Fulfilled res => Normal res
  | Rejected err => Throw err
  end.

End Net.

Export Net.

(* ------------------------------------------------------------------ *)
(** ** The script *)

Section Script.

Variable H : Host.

Definition color_error : jsstring := lit "#ff8a8a".
Definition color_light : jsstring := lit "#035b9d".
Definition color_dark : jsstring := lit "#8fffe0".

(** The accent colour of the active theme. *)
Definition theme_color (p : Page) : jsstring :=
  if contains (body_classList p) (lit "light") then color_light else color_dark.

(** The two assignments of [showReply], once [text] is a string. *)
Definition showReply_string (text : jsstring) (isError : bool) (p : Page) : Page :=
  let p1 := set_replyEl_textContent text p in
  set_replyEl_color (if isError then color_error else theme_color p1) p1.

(** The string an assignment to [textContent] stores.  The attribute has
    the type [DOMString?]: [null] and [undefined] clear the text, any other
    value is converted with [ToString], which can throw. *)
Definition to_DOMString (v : value) : completion jsstring :=
  match v with
  | VUndefined | VNull => Normal []
  | _ => ToString H v
  end.

(** [showReply(text, isError = false)].  When the conversion of [text]
    throws, the page is left as it was. *)
Definition showReply (text : value) (isError : bool) (p : Page) : completion Page :=
  s <- to_DOMString text ;;
  Normal (showReply_string s isError p).

(** "Jarvis — thinking...": the dash is U+2014. *)
Definition thinking : jsstring :=
  lit "Jarvis " ++ [0x2014] ++ lit " thinking...".

(** [JSON.stringify({ command: cmd })] *)
Definition stringify_command (cmd : jsstring) : jsstring :=
  json_lit "{'command':" ++ QuoteJSONString cmd ++ lit "}".

Definition command_request (cmd : jsstring) : Request :=
  {| url := lit "/api/command";
     method := lit "POST";
     headers := [(lit "Content-Type", lit "application/json")];
     body := Some (stringify_command cmd) |}.

(** [sendCmd], up to its first [await]: the page as it leaves it, and the
    request handed to [fetch], if any. *)
Definition sendCmd_start (p : Page) : Page * option Request :=
  let cmd := trim (input_value p) in
  if is_empty cmd then (showReply_string (lit "Please type a command.") true p, None)
  else
    let p1 := showReply_string thinking false p in
    let p2 := set_sendBtn_disabled true p1 in
    (p2, Some (command_request cmd)).

(** [try { data = JSON.parse(text); } catch (e) { data = null; }] *)
Definition parse_or_null (text : jsstring) : value :=
  match JSON_parse text with
  | Some data => data
  | None => VNull
  end.

(** The value the success branch shows:
    [data?.reply ?? text ?? "(no reply)"]. *)
Definition success_reply (data : value) (text : jsstring) : value :=
  coalesce (optional_Get data (lit "reply"))
           (coalesce (VString text) (VString (lit "(no reply)"))).

(** The value the error branch interpolates:
    [data?.reply || text || res.statusText]. *)
Definition error_detail (data : value) (text : jsstring) (res : Response) : value :=
  or_else H (or_else H (optional_Get data (lit "reply")) (VString text))
          (VString (statusText res)).

(** The body of the [try] block, from the settlement of [fetch] on.
    Nothing between the two [await]s touches the page, so [p] is the page
    as it is when the body has been read. *)
Definition sendCmd_try (o : outcome) (p : Page) : completion Page :=
  res <- await_fetch o ;;
  text <- payload res ;;
  let data := parse_or_null text in
  if negb (ok res) then
    detail <- ToString H (error_detail data text res) ;;
    showReply
      (VString (lit "Server error " ++ of_N (status res) ++ lit ": " ++ detail))
      true p
  else
    let reply := success_reply data text in
    showReply reply false p.

(** The [catch] block. *)
Definition sendCmd_catch (err : Error) (p : Page) : Page :=
  showReply_string (lit "Network error: " ++ message_or_err err) true p.

(** [sendCmd] after its first [await]: [try], [catch], [finally]. *)
Definition sendCmd_resume (o : outcome) (p : Page) : Page :=
  let p1 :=
    match sendCmd_try o p with
    | Normal p' => p'
    | Throw err => sendCmd_catch err p
    end in
  set_sendBtn_disabled false p1.

(** *** The launch button *)

Definition launch_request : Request :=
  {| url := lit "/api/launch"; method := lit "POST"; headers := []; body := None |}.

(** The click listener of [launchBtn], up to its first [await]. *)
Definition launch_start (p : Page) : Page * Request :=
  (showReply_string (lit "Launching assistant...") false p, launch_request).

(** [r.json()]: read the body, then parse it; a text that is not JSON
    rejects with a SyntaxError. *)
Definition json (r : Response) : completion value :=
  text <- payload r ;;
  match JSON_parse text with
  | Some j => Normal j
  | None => Throw (mkError (lit "SyntaxError") (message_JSON H text))
  end.

Definition launch_try (o : outcome) (p : Page) : completion Page :=
  r <- await_fetch o ;;
  j <- json r ;;
  st <- Get H j (lit "status") ;;
  showReply (or_else H st (VString (lit "Launch issued"))) false p.

Definition launch_catch (e : Error) (p : Page) : Page :=
  showReply_string (lit "Launch failed: " ++ message_or_err e) true p.

Definition launch_resume (o : outcome) (p : Page) : Page :=
  match launch_try o p with
  | Normal p' => p'
  | Throw e => launch_catch e p
  end.

(** *** The other listeners *)

(** The click listener of [startChatBtn]: scroll the command box into
    view (not part of [Page]) and focus the input. *)
Definition startChat_click (p : Page) : Page := set_input_focused true p.

(** The change listener of the theme toggle. *)
Definition toggle_change (p : Page) : Page :=
  let p1 := set_body_classList (toggle (body_classList p) (lit "light")) p in
  let p2 := set_hero_classList (toggle (hero_classList p1) (lit "light")) p1 in
  set_replyEl_color (theme_color p2) p2.

End Script.

(* ------------------------------------------------------------------ *)
(** ** The event loop *)

Section EventLoop.

Variable H : Host.

(** A request handed to [fetch] and not settled yet, with the listener
    that awaits it. *)
Inductive pending : Type :=
| PendingCommand (r : Request)
| PendingLaunch (r : Request).

(** The page and the requests in flight, oldest first. *)
Record World : Type := mkWorld {
  page : Page;
  in_flight : list pending
}.

(** What the browser can deliver to the page: the user's actions on the
    elements the script listens to, and the settlement of the request at
    index [i] of [in_flight]. *)
Inductive event : Type :=
| InputEdit (v : jsstring)        (* the user changes the input's text *)
| SendClick                       (* click on sendBtn *)
| InputKeydown (key : jsstring)   (* keydown on the input, with e.key *)
| LaunchClick                     (* click on launchBtn *)
| StartChatClick                  (* click on startChatBtn *)
| ThemeChange                     (* change on the theme toggle *)
| Settle (i : nat) (o : outcome).

(** A call of [sendCmd] from a listener: it runs to its first [await]. *)
Definition call_sendCmd (w : World) : World :=
  match sendCmd_start (page w) with
  | (p, Some r) => mkWorld p (in_flight w ++ [PendingCommand r])
  | (p, None) => mkWorld p (in_flight w)
  end.

Fixpoint remove_nth {A : Type} (i : nat) (l : list A) : list A :=
  match i, l with
  | _, [] => []
  | O, _ :: rest => rest
  | S j, x :: rest => x :: remove_nth j rest
  end.

(** One turn of the event loop.  A disabled button dispatches no click. *)
Definition step (w : World) (ev : event) : World :=
  match ev with
  | InputEdit v => mkWorld (set_input_value v (page w)) (in_flight w)
  | SendClick =>
      if sendBtn_disabled (page w) then w else call_sendCmd w
  | InputKeydown key =>
      if JsString.eqb key (lit "Enter") then call_sendCmd w else w
  | LaunchClick =>
      let (p, r) := launch_start (page w) in
      mkWorld p (in_flight w ++ [PendingLaunch r])
  | StartChatClick => mkWorld (startChat_click (page w)) (in_flight w)
  | ThemeChange => mkWorld (toggle_change (page w)) (in_flight w)
  | Settle i o =>
      match nth_error (in_flight w) i with
      | Some (PendingCommand _) =>
          mkWorld (sendCmd_resume H o (page w)) (remove_nth i (in_flight w))
      | Some (PendingLaunch _) =>
          mkWorld (launch_resume H o (page w)) (remove_nth i (in_flight w))
      | None => w
      end
  end.

Definition run (w : World) (evs : list event) : World := fold_left step evs w.

Definition is_command (q : pending) : bool :=
  match q with PendingCommand _ => true | PendingLaunch _ => false end.

(** The number of command requests in flight. *)
Definition commands_in_flight (w : World) : nat :=
  List.length (filter is_command (in_flight w)).

End EventLoop.

(** A page to evaluate examples on: nothing typed, the button enabled, no
    class on the body or the hero (the dark theme). *)
Definition page0 : Page :=
  {| input_value := [];
     input_focused := false;
     sendBtn_disabled := false;
     replyEl_textContent := [];
     replyEl_color := [];
     body_classList := [];
     hero_classList := [] |}.

Definition world0 : World := mkWorld page0 [].

(** A host to evaluate examples on.  The messages are V8's.  The two
    functions on numbers are exact on the lexemes of plain non-negative
    integers only: the lexeme itself, falsy when all its digits are 0. *)
Definition sample_host : Host :=
  {| Number_toString := fun lexeme => lexeme;
     Number_toBoolean := fun lexeme => negb (forallb (N.eqb 48) lexeme);
     message_ToPrimitive := lit "Cannot convert object to primitive value";
     message_GetOfNull := fun key =>
       lit "Cannot read properties of null (reading '" ++ key ++ lit "')";
     message_JSON := fun _ => lit "Unexpected token" |}.

(* ------------------------------------------------------------------ *)
(** ** The navigation bar *)

Module Nav.

(** [classList.add(token)]: append the token unless it is there. *)
Definition add (cl : classList) (token : jsstring) : classList :=
  if contains cl token then cl else cl ++ [token].

(** [classList.remove(token)] *)
Definition remove (cl : classList) (token : jsstring) : classList :=
  filter (fun t => negb (JsString.eqb token t)) cl.

(** What the script reads off the element a selector finds: [offsetTop]
    and [offsetHeight], both integers. *)
Record Box : Type := mkBox { offsetTop : Z; offsetHeight : Z }.

(** An element of [navLinks]: its [href] attribute, if it has one, and its
    class list. *)
Record NavLink : Type := mkNavLink {
  href : option jsstring;
  link_classList : classList
}.

Definition set_link_classList (cl : classList) (link : NavLink) : NavLink :=
  mkNavLink (href link) cl.

(** [link.getAttribute("href")] as [document.querySelector] takes it: a
    missing attribute is [null], which converts to the string "null". *)
Definition selector (link : NavLink) : jsstring :=
  match href link with
  | Some h => h
  | None => lit "null"
  end.


(** [section.offsetTop <= fromTop && section.offsetTop +
    section.offsetHeight > fromTop].  [fromTop] is a double, hence a
    rational; the two integers and their sum are exact. *)
Definition in_view (fromTop : Q) (section : Box) : bool :=
  Qle_bool (inject_Z (offsetTop section)) fromTop
  && negb (Qle_bool (inject_Z (offsetTop section + offsetHeight section)) fromTop).

Section Document.

Variable H : Host.

(** [document.querySelector]: the first element the selector matches,
    [null] when there is none, a SyntaxError when the string is no
    selector.  The sections are taken not to move while a listener runs. *)
Variable querySelector : jsstring -> completion (option Box).


(** The body of the scroll listener's [forEach], for a given [fromTop]:
    the links as the loop leaves them, and the exception that cut it
    short, if any.  Reading [offsetTop] off [null] throws. *)
Fixpoint spy (fromTop : Q) (links : list NavLink) : list NavLink * option Error :=
  match links with
  | [] => ([], None)
  | link :: rest =>
      match querySelector (selector link) with
      | Throw e => (links, Some e)
      | Normal None =>
          (links,
           Some (mkError (lit "TypeError") (message_GetOfNull H (lit "offsetTop"))))
      | Normal (Some section) =>
          let cl := if in_view fromTop section
                    then add (link_classList link) (lit "active")
                    else remove (link_classList link) (lit "active") in
          let (rest', thrown) := spy fromTop rest in
          (set_link_classList cl link :: rest', thrown)
      end
  end.


(** Every link's selector finds an element. *)
Definition resolves (link : NavLink) : Prop :=
  exists section : Box, querySelector (selector link) = Normal (Some section).

End Document.

Definition is_active (link : NavLink) : bool :=
  contains (link_classList link) (lit "active").

End Nav.

Export Nav.

(** A document to evaluate examples on: two sections one below the other,
    and "#", which is no selector. *)
Definition sample_document (sel : jsstring) : completion (option Box) :=
  if JsString.eqb sel (lit "#home") then Normal (Some (mkBox 0 600))
  else if JsString.eqb sel (lit "#features") then Normal (Some (mkBox 600 800))
  else if JsString.eqb sel (lit "#")
       then Throw (mkError (lit "SyntaxError") (lit "'#' is not a valid selector"))
  else Normal None.

Definition sample_links : list NavLink :=
  [mkNavLink (Some (lit "#home")) [lit "nav-link"; lit "active"];
   mkNavLink (Some (lit "#features")) [lit "nav-link"]].

(* ------------------------------------------------------------------ *)
(** ** Notions used in the statements *)

(** What the three parsers have in common: a result leaves strictly less
    input, and fuel beyond twice the input's length is never used up. *)
Definition consumes (run : jsstring -> presult value) (need : nat) (fuel : nat)
  : Prop :=
  forall s,
    (forall v r, run s = Parsed v r -> (List.length r < List.length s)%nat) /\
    ((2 * List.length s + need <= fuel)%nat -> run s <> OutOfFuel).

(** The text that ends in the reply area when a value is handed to
    [showReply] inside the [try] block of [sendCmd]: its conversion to a
    string, or, when the conversion throws, what the [catch] block writes. *)
Definition shown_or_caught (H : Host) (v : value) : jsstring :=
  match to_DOMString H v with
  | Normal s => s
  | Throw e => lit "Network error: " ++ message_or_err e
  end.

(** An event other than a press of the Enter key in the input. *)
Definition no_enter (ev : event) : bool :=
  match ev with
  | InputKeydown key => negb (JsString.eqb key (lit "Enter"))
  | _ => true
  end.

(** The reply area is in the error colour or in the accent of the body's
    theme. *)
Definition color_consistent (p : Page) : Prop :=
  replyEl_color p = color_error \/ replyEl_color p = theme_color p.

(** The hero carries the class "light" exactly when the body does. *)
Definition theme_in_sync (p : Page) : Prop :=
  contains (hero_classList p) (lit "light")
  = contains (body_classList p) (lit "light").


(** The last text the user gave the input, [v] when there was none. *)
Fixpoint last_edit (v : jsstring) (evs : list event) : jsstring :=
  match evs with
  | [] => v
  | InputEdit v' :: rest => last_edit v' rest
  | _ :: rest => last_edit v rest
  end.

(** No command in flight, or one and the send button disabled. *)
Definition guarded (w : World) : Prop :=
  commands_in_flight w = 0%nat \/
  (commands_in_flight w = 1%nat /\ sendBtn_disabled (page w) = true).

(* ------------------------------------------------------------------ *)
(** ** The parser never runs out of fuel *)

Section ParserFuel.

Lemma skip_ws_length (s : jsstring) :
  (List.length (skip_ws s) <= List.length s)%nat.
Proof.
  induction s as [|c r IH]; simpl; [lia|].
  destruct (is_ws c); simpl; lia.
Qed.

Lemma skip_ws_cons_length (s r : jsstring) (c : N) :
  skip_ws s = c :: r -> (List.length r < List.length s)%nat.
Proof.
  intros E. pose proof (skip_ws_length s) as L. rewrite E in L. simpl in L. lia.
Qed.

Lemma lex_string_length (s : jsstring) :
  forall acc x r, lex_string acc s = Parsed x r ->
                  (List.length r < List.length s)%nat.
Proof.
  induction s as [s IH] using (well_founded_induction
                                 (Wf_nat.well_founded_ltof _ (@List.length N))).
  unfold Wf_nat.ltof in IH.
  intros acc x r E. destruct s as [|c s1]; simpl in E; [discriminate|].
  destruct (c =? 34).
  { inversion E; subst. simpl. lia. }
  destruct (c =? 92).
  - destruct s1 as [|e s2]; [discriminate|].
    destruct (e =? 117).
    + destruct s2 as [|h1 [|h2 [|h3 [|h4 s3]]]]; try discriminate.
      destruct (hex4 h1 h2 h3 h4); [|discriminate].
      apply IH in E; simpl in *; lia.
    + destruct (simple_escape e); [|discriminate].
      apply IH in E; simpl in *; lia.
  - destruct (c <? 32); [discriminate|].
    apply IH in E; simpl in *; lia.
Qed.

Lemma lex_string_fuel (s : jsstring) :
  forall acc, lex_string acc s <> OutOfFuel.
Proof.
  induction s as [s IH] using (well_founded_induction
                                 (Wf_nat.well_founded_ltof _ (@List.length N))).
  unfold Wf_nat.ltof in IH.
  intros acc. destruct s as [|c s1]; simpl; [discriminate|].
  destruct (c =? 34); [discriminate|].
  destruct (c =? 92).
  - destruct s1 as [|e s2]; [discriminate|].
    destruct (e =? 117).
    + destruct s2 as [|h1 [|h2 [|h3 [|h4 s3]]]]; try discriminate.
      destruct (hex4 h1 h2 h3 h4); [|discriminate].
      apply IH; simpl; lia.
    + destruct (simple_escape e); [|discriminate].
      apply IH; simpl; lia.
  - destruct (c <? 32); [discriminate|].
    apply IH; simpl; lia.
Qed.

Lemma lex_digits_length (s : jsstring) :
  (List.length (snd (lex_digits s)) <= List.length s)%nat.
Proof.
  induction s as [|c r IH]; simpl; [lia|].
  destruct (is_digit c); simpl; [|lia].
  destruct (lex_digits r); simpl in *; lia.
Qed.

Lemma lex_int_length (s i r : jsstring) :
  lex_int s = Some (i, r) -> (List.length r < List.length s)%nat.
Proof.
  destruct s as [|c s1]; simpl; [discriminate|].
  destruct (c =? 48); [intros E; inversion E; subst; simpl; lia|].
  destruct (is_digit c); [|discriminate].
  pose proof (lex_digits_length s1) as L.
  destruct (lex_digits s1); simpl in *.
  intros E; inversion E; subst; lia.
Qed.

Lemma lex_frac_length (s f r : jsstring) :
  lex_frac s = Some (f, r) -> (List.length r <= List.length s)%nat.
Proof.
  destruct s as [|c s1]; simpl; [intros E; inversion E; subst; simpl; lia|].
  destruct (c =? 46).
  - pose proof (lex_digits_length s1) as L.
    destruct (lex_digits s1) as [[|d ds] rest]; simpl in *; [discriminate|].
    intros E; inversion E; subst; lia.
  - intros E; inversion E; subst; simpl; lia.
Qed.

Lemma lex_exp_length (s e r : jsstring) :
  lex_exp s = Some (e, r) -> (List.length r <= List.length s)%nat.
Proof.
  destruct s as [|c s1]; simpl; [intros E; inversion E; subst; simpl; lia|].
  destruct ((c =? 101) || (c =? 69)).
  - destruct s1 as [|g s2].
    + simpl. discriminate.
    + destruct ((g =? 43) || (g =? 45)).
      * pose proof (lex_digits_length s2) as L.
        destruct (lex_digits s2) as [[|d ds] rest]; simpl in *; [discriminate|].
        intros E; inversion E; subst; lia.
      * pose proof (lex_digits_length (g :: s2)) as L.
        destruct (lex_digits (g :: s2)) as [[|d ds] rest]; simpl in *;
          [discriminate|].
        intros E; inversion E; subst; lia.
  - intros E; inversion E; subst; simpl; lia.
Qed.

Lemma lex_number_length (s x r : jsstring) :
  lex_number s = Parsed x r -> (List.length r < List.length s)%nat.
Proof.
  unfold lex_number.
  assert (K : forall sign s0, (List.length s0 <= List.length s)%nat ->
            match lex_int s0 with
            | None => SyntaxError
            | Some (i, s1) =>
                match lex_frac s1 with
                | None => SyntaxError
                | Some (f, s2) =>
                    match lex_exp s2 with
                    | None => SyntaxError
                    | Some (e, s3) => Parsed (sign ++ i ++ f ++ e) s3
                    end
                end
            end = Parsed x r -> (List.length r < List.length s)%nat).
  { intros sign s0 L0.
    destruct (lex_int s0) as [[i s1]|] eqn:Ei; [|discriminate].
    destruct (lex_frac s1) as [[f s2]|] eqn:Ef; [|discriminate].
    destruct (lex_exp s2) as [[e s3]|] eqn:Ee; [|discriminate].
    intros E; inversion E; subst.
    apply lex_int_length in Ei. apply lex_frac_length in Ef.
    apply lex_exp_length in Ee. lia. }
  destruct s as [|c s1].
  - apply K; simpl; lia.
  - destruct (c =? 45); apply K; simpl; lia.
Qed.

Lemma lex_number_fuel (s : jsstring) : lex_number s <> OutOfFuel.
Proof.
  unfold lex_number.
  destruct (match s with
            | [] => ([], s)
            | c :: r => if c =? 45 then ([c], r) else ([], s)
            end) as [sign s0].
  destruct (lex_int s0) as [[i s1]|]; [|discriminate].
  destruct (lex_frac s1) as [[f s2]|]; [|discriminate].
  destruct (lex_exp s2) as [[e s3]|]; discriminate.
Qed.

Lemma prefix_length (p s : jsstring) :
  prefix p s = true -> (List.length p <= List.length s)%nat.
Proof.
  revert s; induction p as [|x p IH]; intros [|y s]; simpl; try lia;
    try discriminate.
  intros E. apply andb_prop in E as [_ E]. apply IH in E. lia.
Qed.

Lemma lex_literal_length (s r : jsstring) (v : value) :
  lex_literal s = Parsed v r -> (List.length r < List.length s)%nat.
Proof.
  unfold lex_literal.
  assert (K : forall n w, (0 < n <= List.length s)%nat ->
            Parsed w (skipn n s) = Parsed v r ->
            (List.length r < List.length s)%nat).
  { intros n w Hn E. assert (R : r = skipn n s) by congruence.
    rewrite R, length_skipn. lia. }
  destruct (prefix (lit "true") s) eqn:E1.
  { apply prefix_length in E1. apply K. simpl in E1. lia. }
  destruct (prefix (lit "false") s) eqn:E2.
  { apply prefix_length in E2. apply K. simpl in E2. lia. }
  destruct (prefix (lit "null") s) eqn:E3; [|discriminate].
  apply prefix_length in E3. apply K. simpl in E3. lia.
Qed.

Lemma lex_literal_fuel (s : jsstring) : lex_literal s <> OutOfFuel.
Proof.
  unfold lex_literal.
  destruct (prefix (lit "true") s); [discriminate|].
  destruct (prefix (lit "false") s); [discriminate|].
  destruct (prefix (lit "null") s); discriminate.
Qed.

Lemma parsers_consume (fuel : nat) :
  consumes (parse_value fuel) 2 fuel /\
  (forall acc, consumes (parse_elements fuel acc) 3 fuel) /\
  (forall acc, consumes (parse_members fuel acc) 3 fuel).
Proof.
  induction fuel as [|f [IHv [IHe IHm]]].
  { repeat split; intros; simpl in *; try discriminate; lia. }
  split; [|split].
  - (* parse_value *)
    intros s. simpl.
    destruct (skip_ws s) as [|c r] eqn:Es.
    { split; [discriminate|intros _; discriminate]. }
    apply skip_ws_cons_length in Es.
    destruct (c =? 123).
    { destruct (skip_ws r) as [|c' r'] eqn:Er.
      { split; [discriminate|intros _; discriminate]. }
      apply skip_ws_cons_length in Er.
      destruct (c' =? 125).
      { split; [|intros _; discriminate].
        intros v r0 E; inversion E; subst; lia. }
      destruct (IHm [] r) as [L F]. split.
      - intros v r0 E. apply L in E. lia.
      - intros Hf. apply F. lia. }
    destruct (c =? 91).
    { destruct (skip_ws r) as [|c' r'] eqn:Er.
      { split; [discriminate|intros _; discriminate]. }
      apply skip_ws_cons_length in Er.
      destruct (c' =? 93).
      { split; [|intros _; discriminate].
        intros v r0 E; inversion E; subst; lia. }
      destruct (IHe [] r) as [L F]. split.
      - intros v r0 E. apply L in E. lia.
      - intros Hf. apply F. lia. }
    destruct (c =? 34).
    { pose proof (lex_string_fuel r []) as F.
      destruct (lex_string [] r) as [str rest| |] eqn:El;
        [|split; [discriminate|intros _; discriminate]|contradiction].
      apply lex_string_length in El.
      split; [|intros _; discriminate].
      intros v r0 E; inversion E; subst; lia. }
    destruct ((c =? 45) || is_digit c).
    { pose proof (lex_number_fuel (c :: r)) as F.
      destruct (lex_number (c :: r)) as [lexeme rest| |] eqn:El;
        [|split; [discriminate|intros _; discriminate]|contradiction].
      apply lex_number_length in El. simpl in El.
      split; [|intros _; discriminate].
      intros v r0 E; inversion E; subst; lia. }
    split.
    + intros v r0 E. apply lex_literal_length in E. simpl in E. lia.
    + intros _. apply lex_literal_fuel.
  - (* parse_elements *)
    intros acc s. simpl.
    destruct (IHv s) as [Lv Fv].
    destruct (parse_value f s) as [v r| |] eqn:Ev.
    + specialize (Lv _ _ eq_refl).
      destruct (skip_ws r) as [|c r'] eqn:Er.
      { split; [discriminate|intros _; discriminate]. }
      apply skip_ws_cons_length in Er.
      destruct (c =? 44).
      { destruct (IHe (v :: acc) r') as [L F]. split.
        - intros w r0 E. apply L in E. lia.
        - intros Hf. apply F. lia. }
      destruct (c =? 93); [|split; [discriminate|intros _; discriminate]].
      split; [|intros _; discriminate].
      intros w r0 E; inversion E; subst; lia.
    + split; [discriminate|intros _; discriminate].
    + split; [discriminate|]. intros Hf _. apply Fv; [lia|reflexivity].
  - (* parse_members *)
    intros acc s. simpl.
    destruct (skip_ws s) as [|q r0] eqn:Es.
    { split; [discriminate|intros _; discriminate]. }
    apply skip_ws_cons_length in Es.
    destruct (q =? 34); [|split; [discriminate|intros _; discriminate]].
    pose proof (lex_string_fuel r0 []) as Fs.
    destruct (lex_string [] r0) as [key r1| |] eqn:El;
      [|split; [discriminate|intros _; discriminate]|contradiction].
    apply lex_string_length in El.
    destruct (skip_ws r1) as [|colon r2] eqn:E1.
    { split; [discriminate|intros _; discriminate]. }
    apply skip_ws_cons_length in E1.
    destruct (colon =? 58); [|split; [discriminate|intros _; discriminate]].
    destruct (IHv r2) as [Lv Fv].
    destruct (parse_value f r2) as [v r3| |] eqn:Ev.
    + specialize (Lv _ _ eq_refl).
      destruct (skip_ws r3) as [|c r4] eqn:E3.
      { split; [discriminate|intros _; discriminate]. }
      apply skip_ws_cons_length in E3.
      destruct (c =? 44).
      { destruct (IHm ((key, v) :: acc) r4) as [L F]. split.
        - intros w r E. apply L in E. lia.
        - intros Hf. apply F. lia. }
      destruct (c =? 125); [|split; [discriminate|intros _; discriminate]].
      split; [|intros _; discriminate].
      intros w r E; inversion E; subst; lia.
    + split; [discriminate|intros _; discriminate].
    + split; [discriminate|]. intros Hf _. apply Fv; [lia|reflexivity].
Qed.

(** [JSON_parse] gives its parser enough fuel: [None] is always a syntax
    error of the text, never a parse cut short. *)
Lemma parse_value_fuel (text : jsstring) :
  parse_value (parse_fuel text) text <> OutOfFuel.
Proof.
  destruct (parsers_consume (parse_fuel text)) as [Hv _].
  apply (Hv text). unfold parse_fuel. lia.
Qed.

End ParserFuel.

(* ------------------------------------------------------------------ *)
(** ** Strings, trimming and class lists *)

Section StringFacts.

Lemma eqb_eq (a b : jsstring) : JsString.eqb a b = true <-> a = b.
Proof.
  revert b; induction a as [|x a IH]; intros [|y b]; simpl; split;
    try discriminate; try reflexivity.
  - intros E. apply andb_prop in E as [E1 E2].
    apply N.eqb_eq in E1. apply IH in E2. congruence.
  - intros E. inversion E; subst. rewrite N.eqb_refl. simpl. now apply IH.
Qed.

Lemma eqb_refl (a : jsstring) : JsString.eqb a a = true.
Proof. now apply eqb_eq. Qed.

Lemma is_empty_nil (s : jsstring) : is_empty s = true <-> s = [].
Proof. destruct s; simpl; split; congruence. Qed.

Lemma trimStart_blank (s : jsstring) :
  trimStart s = [] <-> forallb isWhiteSpace s = true.
Proof.
  induction s as [|c r IH]; simpl; [tauto|].
  destruct (isWhiteSpace c); simpl; [exact IH|].
  split; discriminate.
Qed.

(** What [trimStart] leaves is empty or starts with a character that is not
    white space. *)
Lemma trimStart_idempotent (s : jsstring) : trimStart (trimStart s) = trimStart s.
Proof.
  induction s as [|c r IH]; simpl; [reflexivity|].
  destruct (isWhiteSpace c) eqn:E; [exact IH|].
  simpl. now rewrite E.
Qed.

Lemma forallb_rev {A : Type} (f : A -> bool) (l : list A) :
  forallb f (rev l) = forallb f l.
Proof.
  induction l as [|x l IH]; simpl; [reflexivity|].
  rewrite forallb_app, IH. simpl. rewrite andb_true_r. apply andb_comm.
Qed.

(** [trim] leaves nothing exactly when every code unit is white space. *)
Lemma trim_blank (s : jsstring) :
  trim s = [] <-> forallb isWhiteSpace s = true.
Proof.
  unfold trim, trimEnd. split.
  - intros E.
    assert (E1 : trimStart (rev (trimStart s)) = []).
    { destruct (trimStart (rev (trimStart s))) as [|c l]; [reflexivity|].
      simpl in E. apply app_eq_nil in E as [_ E]. discriminate. }
    apply trimStart_blank in E1. rewrite forallb_rev in E1.
    apply (proj2 (trimStart_blank (trimStart s))) in E1.
    rewrite trimStart_idempotent in E1. now apply trimStart_blank.
  - intros E. apply trimStart_blank in E. now rewrite E.
Qed.

Lemma prefix_app (p s : jsstring) : prefix p (p ++ s) = true.
Proof.
  induction p as [|x p IH]; simpl; [reflexivity|].
  now rewrite N.eqb_refl, IH.
Qed.

Lemma includes_app_l (p s : jsstring) : includes (p ++ s) p = true.
Proof.
  destruct p as [|x p]; [now destruct s|].
  simpl. now rewrite N.eqb_refl, prefix_app.
Qed.

Lemma includes_app_r (a b : jsstring) : includes (a ++ b) b = true.
Proof.
  induction a as [|x a IH]; simpl.
  - pose proof (includes_app_l b []) as E. now rewrite app_nil_r in E.
  - rewrite IH. apply orb_true_r.
Qed.

Lemma contains_toggle (cl : classList) (token : jsstring) :
  contains (toggle cl token) token = negb (contains cl token).
Proof.
  unfold toggle. destruct (contains cl token) eqn:E; simpl.
  - unfold contains. apply not_true_is_false. intros C.
    apply existsb_exists in C as [t [Hin Ht]].
    apply filter_In in Hin as [_ Hn]. now rewrite Ht in Hn.
  - unfold contains. rewrite existsb_app. simpl.
    rewrite eqb_refl. now rewrite orb_true_r.
Qed.

End StringFacts.

(* ------------------------------------------------------------------ *)
(** ** What [showReply] leaves on the page *)

Section ShowReply.

Variable H : Host.

Lemma showReply_string_text (s : jsstring) (isError : bool) (p : Page) :
  replyEl_textContent (showReply_string s isError p) = s.
Proof. reflexivity. Qed.

Lemma showReply_string_error_color (s : jsstring) (p : Page) :
  replyEl_color (showReply_string s true p) = color_error.
Proof. reflexivity. Qed.

Lemma showReply_string_disabled (s : jsstring) (isError : bool) (p : Page) :
  sendBtn_disabled (showReply_string s isError p) = sendBtn_disabled p.
Proof. reflexivity. Qed.

(** [showReply] of a string never throws. *)
Lemma showReply_VString (s : jsstring) (isError : bool) (p : Page) :
  showReply H (VString s) isError p = Normal (showReply_string s isError p).
Proof. reflexivity. Qed.

(** [showReply] of a truthy value: [ToString], then the two assignments. *)
Lemma showReply_truthy (v : value) (isError : bool) (p : Page) :
  ToBoolean H v = true ->
  showReply H v isError p =
  match ToString_opt H v with
  | Some s => Normal (showReply_string s isError p)
  | None => Throw (TypeError_ToPrimitive H)
  end.
Proof.
  intros B. unfold showReply.
  assert (E : to_DOMString H v = ToString H v)
    by (destruct v; try reflexivity; discriminate).
  rewrite E. unfold ToString. now destruct (ToString_opt H v).
Qed.

(** A value that is neither [null] nor [undefined] is converted by
    [ToString]. *)
Lemma shown_or_caught_coalesce (a : value) (s : jsstring) :
  shown_or_caught H (coalesce a (VString s)) =
  match a with
  | VUndefined | VNull => s
  | _ => match ToString_opt H a with
         | Some t => t
         | None => lit "Network error: " ++ message_or_err (TypeError_ToPrimitive H)
         end
  end.
Proof.
  unfold shown_or_caught.
  destruct a; try reflexivity; cbn [coalesce to_DOMString]; unfold ToString;
    match goal with
    | |- context [ToString_opt H ?v] => destruct (ToString_opt H v)
    end; reflexivity.
Qed.

Lemma ok_range (res : Response) :
  ok res = true <-> 200 <= status res <= 299.
Proof.
  unfold ok. rewrite andb_true_iff, !N.leb_le. tauto.
Qed.

End ShowReply.

(* ------------------------------------------------------------------ *)
(** ** The command console *)

(** C3. When the input holds only white space (or nothing), so that it
    trims to the empty string, a call of [sendCmd] hands no request to
    [fetch], leaves the requests in flight as they were, and shows
    "Please type a command." in the error colour. *)
Theorem sendCmd_blank_command (w : World) :
  forallb isWhiteSpace (input_value (page w)) = true ->
  snd (sendCmd_start (page w)) = None /\
  in_flight (call_sendCmd w) = in_flight w /\
  replyEl_textContent (page (call_sendCmd w)) = lit "Please type a command." /\
  replyEl_color (page (call_sendCmd w)) = color_error.
Proof.
  intros B. apply trim_blank in B.
  unfold call_sendCmd, sendCmd_start. rewrite B. simpl. auto.
Qed.

Lemma sendCmd_blank_command_witness :
  let w := mkWorld (set_input_value [0x20; 0x09; 0xA0] page0) [] in
  forallb isWhiteSpace (input_value (page w)) = true /\
  snd (sendCmd_start (page w)) = None /\
  in_flight (call_sendCmd w) = in_flight w /\
  replyEl_textContent (page (call_sendCmd w)) = lit "Please type a command." /\
  replyEl_color (page (call_sendCmd w)) = color_error.
Proof.
  intros w. split; [reflexivity|].
  apply (sendCmd_blank_command w). reflexivity.
Defined.

(** C5. When the promise of [fetch] rejects, the text shown is
    "Network error: " followed by the failure's message (by the error's
    name when the message is empty), in the error colour: it always holds
    the prefix "Network error" and the failure's message.  For a rejection
    with the message "Failed to fetch" it is
    "Network error: Failed to fetch". *)
Theorem sendCmd_network_error (H : Host) (err : Error) (p : Page) :
  let p' := sendCmd_resume H (Rejected err) p in
  replyEl_textContent p' =
    lit "Network error: " ++
    (if is_empty (message err) then name err else message err) /\
  replyEl_color p' = color_error /\
  includes (replyEl_textContent p') (lit "Network error") = true /\
  includes (replyEl_textContent p') (message err) = true /\
  (forall nm : jsstring,
     let shown := replyEl_textContent
                    (sendCmd_resume H
                       (Rejected (mkError nm (lit "Failed to fetch"))) p) in
     shown = lit "Network error: Failed to fetch" /\
     includes shown (lit "Network error") = true /\
     includes shown (lit "Failed to fetch") = true).
Proof.
  split; [reflexivity|]. split; [reflexivity|].
  split; [reflexivity|]. split; [|repeat split].
  change (replyEl_textContent (sendCmd_resume H (Rejected err) p))
    with (lit "Network error: " ++ message_or_err err).
  unfold message_or_err. destruct (message err) as [|c m] eqn:E.
  - now destruct (lit "Network error: " ++ name err).
  - simpl is_empty. cbv iota. apply includes_app_r.
Qed.

(** C6. Whatever the request's outcome (a response of any status, a body
    that cannot be read, a rejected [fetch], an exception thrown while the
    reply is shown), [sendBtn.disabled] is [false] when [sendCmd] ends. *)
Theorem sendCmd_reenables_button (H : Host) (o : outcome) (p : Page) :
  sendBtn_disabled (sendCmd_resume H o p) = false.
Proof.
  unfold sendCmd_resume.
  destruct (sendCmd_try H o p) as [p1 | e]; reflexivity.
Qed.

(** C2 (the code departs from it). For a response of status 200 with an
    empty body the text shown is the empty string: the body is a string, so
    [??] never passes on to "(no reply)". *)
Theorem sendCmd_empty_body (H : Host) (stText : jsstring) (p : Page) :
  let p' := sendCmd_resume H (Fulfilled (mkResponse 200 stText (Normal []))) p in
  replyEl_textContent p' = [] /\
  replyEl_textContent p' <> lit "(no reply)".
Proof.
  split; [reflexivity|discriminate].
Qed.

(** The success branch, for a response whose body has been read. *)
Lemma sendCmd_resume_success (H : Host) (res : Response) (text : jsstring) (p : Page) :
  ok res = true -> payload res = Normal text ->
  replyEl_textContent (sendCmd_resume H (Fulfilled res) p) =
  shown_or_caught H (success_reply (parse_or_null text) text).
Proof.
  intros Hok Hp. unfold sendCmd_resume, sendCmd_try, shown_or_caught. simpl.
  rewrite Hp. simpl. rewrite Hok. simpl. unfold showReply.
  now destruct (to_DOMString H _).
Qed.

(** The error branch, for a response whose body has been read. *)
Lemma sendCmd_resume_failure (H : Host) (res : Response) (text : jsstring) (p : Page) :
  ok res = false -> payload res = Normal text ->
  replyEl_textContent (sendCmd_resume H (Fulfilled res) p) =
  match ToString_opt H (error_detail H (parse_or_null text) text res) with
  | Some detail => lit "Server error " ++ of_N (status res) ++ lit ": " ++ detail
  | None => lit "Network error: " ++ message_or_err (TypeError_ToPrimitive H)
  end.
Proof.
  intros Hok Hp. unfold sendCmd_resume, sendCmd_try. simpl.
  rewrite Hp. simpl. rewrite Hok. simpl. unfold ToString.
  now destruct (ToString_opt H _).
Qed.

(** C1, amended. For a response with a 2xx status and body [text], the text
    shown is: when [text] parses as a JSON object with a member [reply]
    that is not [null], that member converted to a string (a string
    member as it is), or, when the conversion throws, the [catch] block's
    "Network error: " and the exception's message; in every other case
    (no such member, a [null] one, a body that is JSON of another kind or
    not JSON at all) the raw [text].  With status 200, the body
    {"reply": "Hello"} shows "Hello" and the body ok shows "ok". *)
Theorem sendCmd_success_reply
  (H : Host) (st : N) (stText text : jsstring) (p : Page) :
  200 <= st <= 299 ->
  replyEl_textContent
    (sendCmd_resume H (Fulfilled (mkResponse st stText (Normal text))) p) =
  match JSON_parse text with
  | Some (VObject members) =>
      match lookup (lit "reply") members with
      | None | Some VUndefined | Some VNull => text
      | Some v =>
          match ToString_opt H v with
          | Some s => s
          | None =>
              lit "Network error: " ++ message_or_err (TypeError_ToPrimitive H)
          end
      end
  | _ => text
  end
  /\ replyEl_textContent
       (sendCmd_resume H
          (Fulfilled (mkResponse 200 stText
                        (Normal (json_lit "{'reply': 'Hello'}")))) p)
     = lit "Hello"
  /\ replyEl_textContent
       (sendCmd_resume H
          (Fulfilled (mkResponse 200 stText (Normal (lit "ok")))) p)
     = lit "ok".
Proof.
  intros R. split; [|split; reflexivity].
  rewrite (sendCmd_resume_success H _ text); [|now apply ok_range|reflexivity].
  unfold parse_or_null, success_reply. simpl coalesce at 2.
  rewrite shown_or_caught_coalesce.
  destruct (JSON_parse text) as [[| |b|l|s|els|ms]|]; try reflexivity.
  simpl. destruct (lookup (lit "reply") ms) as [[| |b|l|s|els|ms']|]; reflexivity.
Qed.

Lemma sendCmd_success_reply_witness :
  200 <= 204 <= 299 /\
  replyEl_textContent
    (sendCmd_resume sample_host
       (Fulfilled (mkResponse 204 (lit "No Content")
                     (Normal (json_lit "{'reply': ['a', null, 7]}")))) page0)
  = lit "a,,7".
Proof.
  assert (R : 200 <= 204 <= 299) by lia.
  split; [exact R|].
  exact (proj1 (sendCmd_success_reply sample_host 204 (lit "No Content")
                  (json_lit "{'reply': ['a', null, 7]}") page0 R)).
Defined.

(** C1 as stated fails: a response of status 200 whose body is the JSON
    text {"reply": {"toString": 1}} has a [reply] member, yet what is shown
    is neither that member nor the raw text but the [catch] block's
    "Network error: ...", in the error colour: the member's own [toString]
    is not callable, so converting it for [textContent] throws. *)
Lemma sendCmd_success_reply_counterexample :
  let text := json_lit "{'reply': {'toString': 1}}" in
  let p' := sendCmd_resume sample_host
              (Fulfilled (mkResponse 200 (lit "OK") (Normal text))) page0 in
  JSON_parse text =
    Some (VObject [(lit "reply", VObject [(lit "toString", VNumber (lit "1"))])]) /\
  replyEl_textContent p' =
    lit "Network error: Cannot convert object to primitive value" /\
  replyEl_textContent p' <> text /\
  replyEl_color p' = color_error.
Proof.
  repeat split. discriminate.
Qed.

(** C4, amended. For a response with a status outside 200..299 and body
    [text], the text shown is "Server error ", the status in decimal, ": "
    and a detail converted to a string: the [reply] member of the parsed
    body when the body is a JSON object and that member is truthy, else
    [text] when it is not empty, else the status phrase.  When the
    conversion of the detail throws, the [catch] block's "Network error: "
    and the exception's message are shown instead.  With status 500 and the
    body {"reply": "boom"} the text shown is "Server error 500: boom". *)
Theorem sendCmd_server_error
  (H : Host) (st : N) (stText text : jsstring) (p : Page) :
  ~ (200 <= st <= 299) ->
  replyEl_textContent
    (sendCmd_resume H (Fulfilled (mkResponse st stText (Normal text))) p) =
  (let fallback := if is_empty text then stText else text in
   let detail :=
     match JSON_parse text with
     | Some (VObject members) =>
         match lookup (lit "reply") members with
         | Some v => if ToBoolean H v then ToString_opt H v else Some fallback
         | None => Some fallback
         end
     | _ => Some fallback
     end in
   match detail with
   | Some d => lit "Server error " ++ of_N st ++ lit ": " ++ d
   | None => lit "Network error: " ++ message_or_err (TypeError_ToPrimitive H)
   end)
  /\ (let shown :=
        replyEl_textContent
          (sendCmd_resume H
             (Fulfilled (mkResponse 500 stText
                           (Normal (json_lit "{'reply': 'boom'}")))) p) in
      shown = lit "Server error 500: boom" /\
      includes shown (lit "500") = true /\
      includes shown (lit "boom") = true).
Proof.
  intros R. split; [|repeat split].
  rewrite (sendCmd_resume_failure H _ text); [| |reflexivity].
  2:{ apply not_true_is_false. intros C. now apply ok_range in C. }
  simpl. unfold error_detail, or_else, parse_or_null.
  destruct (JSON_parse text) as [[| |b|l|s|els|ms]|]; simpl;
    try (destruct (is_empty text); reflexivity).
  destruct (lookup (lit "reply") ms) as [v|]; simpl;
    [|destruct (is_empty text); reflexivity].
  destruct (ToBoolean H v) eqn:B; [rewrite B; reflexivity|].
  simpl. destruct (is_empty text); reflexivity.
Qed.

Lemma sendCmd_server_error_witness :
  ~ (200 <= 404 <= 299) /\
  replyEl_textContent
    (sendCmd_resume sample_host
       (Fulfilled (mkResponse 404 (lit "Not Found") (Normal []))) page0)
  = lit "Server error 404: Not Found".
Proof.
  assert (R : ~ (200 <= 404 <= 299)) by lia.
  split; [exact R|].
  exact (proj1 (sendCmd_server_error sample_host 404 (lit "Not Found") [] page0 R)).
Defined.

(** C4 as stated fails: for status 500 and the body
    {"reply": {"toString": 1}} the text shown is the [catch] block's
    "Network error: ...", which holds neither the status code nor any of
    the three details. *)
Lemma sendCmd_server_error_counterexample :
  let text := json_lit "{'reply': {'toString': 1}}" in
  let shown :=
    replyEl_textContent
      (sendCmd_resume sample_host
         (Fulfilled (mkResponse 500 (lit "Internal Server Error") (Normal text)))
         page0) in
  shown = lit "Network error: Cannot convert object to primitive value" /\
  includes shown (lit "500") = false /\
  includes shown text = false /\
  includes shown (lit "Internal Server Error") = false.
Proof.
  repeat split.
Qed.

(* ------------------------------------------------------------------ *)
(** ** The theme toggle *)

(** C9. One change of the toggle flips the presence of the class "light"
    on the body and on the hero; two changes in a row leave the body with
    the class "light" exactly when it had it before. *)
Theorem toggle_change_twice (p : Page) :
  contains (body_classList (toggle_change (toggle_change p))) (lit "light")
    = contains (body_classList p) (lit "light") /\
  contains (body_classList (toggle_change p)) (lit "light")
    = negb (contains (body_classList p) (lit "light")) /\
  contains (hero_classList (toggle_change p)) (lit "light")
    = negb (contains (hero_classList p) (lit "light")).
Proof.
  assert (B : forall q, contains (body_classList (toggle_change q)) (lit "light")
                        = negb (contains (body_classList q) (lit "light"))).
  { intros q. unfold toggle_change. simpl. apply contains_toggle. }
  split; [|split].
  - rewrite !B. apply negb_involutive.
  - apply B.
  - unfold toggle_change. simpl. apply contains_toggle.
Qed.

(* ------------------------------------------------------------------ *)
(** ** The launch button *)

(** The parsers build no [undefined]. *)
Lemma parsers_defined (fuel : nat) :
  (forall s r, parse_value fuel s <> Parsed VUndefined r) /\
  (forall acc s r, parse_elements fuel acc s <> Parsed VUndefined r) /\
  (forall acc s r, parse_members fuel acc s <> Parsed VUndefined r).
Proof.
  induction fuel as [|f [IHv [IHe IHm]]]; [repeat split; discriminate|].
  split; [|split].
  - intros s r. simpl.
    destruct (skip_ws s) as [|c r0]; [discriminate|].
    destruct (c =? 123).
    { destruct (skip_ws r0) as [|c' r']; [discriminate|].
      destruct (c' =? 125); [discriminate|apply IHm]. }
    destruct (c =? 91).
    { destruct (skip_ws r0) as [|c' r']; [discriminate|].
      destruct (c' =? 93); [discriminate|apply IHe]. }
    destruct (c =? 34); [destruct (lex_string [] r0); discriminate|].
    destruct ((c =? 45) || is_digit c);
      [destruct (lex_number (c :: r0)); discriminate|].
    unfold lex_literal.
    destruct (prefix (lit "true") (c :: r0)); [discriminate|].
    destruct (prefix (lit "false") (c :: r0)); [discriminate|].
    destruct (prefix (lit "null") (c :: r0)); discriminate.
  - intros acc s r. simpl.
    destruct (parse_value f s) as [v r0| |]; try discriminate.
    destruct (skip_ws r0) as [|c r']; [discriminate|].
    destruct (c =? 44); [apply IHe|].
    destruct (c =? 93); discriminate.
  - intros acc s r. simpl.
    destruct (skip_ws s) as [|q r0]; [discriminate|].
    destruct (q =? 34); [|discriminate].
    destruct (lex_string [] r0) as [key r1| |]; try discriminate.
    destruct (skip_ws r1) as [|colon r2]; [discriminate|].
    destruct (colon =? 58); [|discriminate].
    destruct (parse_value f r2) as [v r3| |]; try discriminate.
    destruct (skip_ws r3) as [|c r4]; [discriminate|].
    destruct (c =? 44); [apply IHm|].
    destruct (c =? 125); discriminate.
Qed.

Lemma JSON_parse_defined (text : jsstring) : JSON_parse text <> Some VUndefined.
Proof.
  unfold JSON_parse.
  destruct (parse_value (parse_fuel text) text) as [v r| |] eqn:E;
    try discriminate.
  destruct (is_empty (skip_ws r)); [|discriminate].
  intros C. inversion C; subst.
  now apply (proj1 (parsers_defined (parse_fuel text))) in E.
Qed.

(** The [try] block of the launch listener, case by case. *)
Lemma launch_try_cases (H : Host) (o : outcome) (p : Page) :
  launch_try H o p =
  match o with
  | Rejected e => Throw e
  | Fulfilled r =>
      match payload r with
      | Throw e => Throw e
      | Normal text =>
          match JSON_parse text with
          | None => Throw (mkError (lit "SyntaxError") (message_JSON H text))
          | Some VUndefined | Some VNull =>
              Throw (mkError (lit "TypeError") (message_GetOfNull H (lit "status")))
          | Some (VObject members) =>
              match lookup (lit "status") members with
              | Some v =>
                  if ToBoolean H v then
                    match ToString_opt H v with
                    | Some s => Normal (showReply_string s false p)
                    | None => Throw (TypeError_ToPrimitive H)
                    end
                  else Normal (showReply_string (lit "Launch issued") false p)
              | None => Normal (showReply_string (lit "Launch issued") false p)
              end
          | Some _ => Normal (showReply_string (lit "Launch issued") false p)
          end
      end
  end.
Proof.
  unfold launch_try. destruct o as [r|e]; [|reflexivity]. simpl.
  unfold json. destruct (payload r) as [text|e]; [|reflexivity]. simpl.
  destruct (JSON_parse text) as [[| |b|l|s|els|ms]|]; try reflexivity.
  simpl. unfold or_else.
  destruct (lookup (lit "status") ms) as [v|]; [|reflexivity].
  destruct (ToBoolean H v) eqn:B; [|reflexivity].
  now apply showReply_truthy.
Qed.

(** C8, amended. A click on the launch button hands [fetch] one request, a
    POST to /api/launch without headers or body.  When the body of the
    response is a JSON object with a truthy member [status] (not the
    empty string, 0, [false] or [null]), that member is shown, converted
    to a string; when it is any other JSON value but [null], "Launch
    issued" is shown.  When the request is rejected, the body cannot be
    read or is not JSON, the parsed value is [null], or the conversion of
    the member throws, the text shown is "Launch failed: " followed by the
    exception's message (its name when the message is empty), in the
    error colour. *)
Theorem launch_shows_status (H : Host) (p : Page) :
  snd (launch_start p) = mkRequest (lit "/api/launch") (lit "POST") [] None /\
  (forall w : World,
     in_flight (step H w LaunchClick) =
     in_flight w ++ [PendingLaunch (mkRequest (lit "/api/launch") (lit "POST") [] None)]) /\
  (forall (st : N) (stText text : jsstring),
     replyEl_textContent
       (launch_resume H (Fulfilled (mkResponse st stText (Normal text))) p) =
     let failed (e : Error) := lit "Launch failed: " ++ message_or_err e in
     match JSON_parse text with
     | None => failed (mkError (lit "SyntaxError") (message_JSON H text))
     | Some VNull =>
         failed (mkError (lit "TypeError") (message_GetOfNull H (lit "status")))
     | Some (VObject members) =>
         match lookup (lit "status") members with
         | Some v =>
             if ToBoolean H v then
               match ToString_opt H v with
               | Some s => s
               | None => failed (TypeError_ToPrimitive H)
               end
             else lit "Launch issued"
         | None => lit "Launch issued"
         end
     | Some _ => lit "Launch issued"
     end) /\
  (forall e : Error,
     let p' := launch_resume H (Rejected e) p in
     replyEl_textContent p' = lit "Launch failed: " ++ message_or_err e /\
     replyEl_color p' = color_error) /\
  (forall (st : N) (stText : jsstring) (e : Error),
     let p' := launch_resume H (Fulfilled (mkResponse st stText (Throw e))) p in
     replyEl_textContent p' = lit "Launch failed: " ++ message_or_err e /\
     replyEl_color p' = color_error).
Proof.
  split; [reflexivity|]. split; [reflexivity|].
  split; [|split; intros; split; reflexivity].
  intros st stText text. unfold launch_resume. rewrite launch_try_cases. simpl.
  pose proof (JSON_parse_defined text) as D.
  destruct (JSON_parse text) as [[| |b|l|s|els|ms]|]; try reflexivity.
  - now contradiction D.
  - destruct (lookup (lit "status") ms) as [v|]; [|reflexivity].
    destruct (ToBoolean H v); [|reflexivity].
    destruct (ToString_opt H v); reflexivity.
Qed.

(** C8 as stated fails: the body {"status": ""} of a 200 response has a
    [status] member, the empty string, and what is shown is not that
    member but "Launch issued". *)
Lemma launch_shows_status_counterexample :
  let text := json_lit "{'status': ''}" in
  JSON_parse text = Some (VObject [(lit "status", VString [])]) /\
  let shown :=
    replyEl_textContent
      (launch_resume sample_host
         (Fulfilled (mkResponse 200 (lit "OK") (Normal text))) page0) in
  shown = lit "Launch issued" /\ shown <> [].
Proof.
  repeat split. discriminate.
Qed.

(** C10, amended. The launch listener never reads the response's status:
    two responses with the same body leave the same page, whatever their
    status and status phrase; so a body {"status": "started"} shows
    "started" under status 500 as well, in the theme's colour.  The [catch]
    block is reached exactly when [fetch] rejects, the body cannot be read,
    the body is not JSON (a SyntaxError), the body is the JSON [null] (a
    TypeError on reading [status]), or the [status] member is truthy and
    its conversion to a string throws. *)
Theorem launch_ignores_http_status (H : Host) (p : Page) :
  (forall (st1 st2 : N) (stText1 stText2 : jsstring) (pl : completion jsstring),
     launch_resume H (Fulfilled (mkResponse st1 stText1 pl)) p =
     launch_resume H (Fulfilled (mkResponse st2 stText2 pl)) p) /\
  (let p' := launch_resume H
               (Fulfilled (mkResponse 500 (lit "Internal Server Error")
                             (Normal (json_lit "{'status': 'started'}")))) p in
   replyEl_textContent p' = lit "started" /\
   replyEl_color p' = theme_color p) /\
  (forall (o : outcome) (e : Error),
     launch_try H o p = Throw e <->
     o = Rejected e \/
     exists res : Response,
       o = Fulfilled res /\
       (payload res = Throw e \/
        exists text : jsstring,
          payload res = Normal text /\
          ((JSON_parse text = None /\
            e = mkError (lit "SyntaxError") (message_JSON H text)) \/
           (JSON_parse text = Some VNull /\
            e = mkError (lit "TypeError") (message_GetOfNull H (lit "status"))) \/
           (exists members v,
              JSON_parse text = Some (VObject members) /\
              lookup (lit "status") members = Some v /\
              ToBoolean H v = true /\
              ToString_opt H v = None /\
              e = TypeError_ToPrimitive H)))).
Proof.
  split; [|split].
  - intros. unfold launch_resume. now rewrite !launch_try_cases.
  - split; reflexivity.
  - intros o e. rewrite launch_try_cases. split.
    + destruct o as [res|e0]; [|intros E; left; congruence].
      intros E. right. exists res. split; [reflexivity|].
      destruct (payload res) as [text|e0]; [|left; congruence].
      right. exists text. split; [reflexivity|].
      pose proof (JSON_parse_defined text) as D.
      destruct (JSON_parse text) as [[| |b|l|s|els|ms]|]; try discriminate.
      * now contradiction D.
      * right; left. split; congruence.
      * right; right. destruct (lookup (lit "status") ms) as [v|] eqn:L;
          [|discriminate].
        destruct (ToBoolean H v) eqn:B; [|discriminate].
        destruct (ToString_opt H v) eqn:T; [discriminate|].
        exists ms, v. repeat split; congruence.
      * left. split; congruence.
    + intros [->|[res [-> [Hp|[text [Hp Hc]]]]]]; [reflexivity|now rewrite Hp|].
      rewrite Hp.
      destruct Hc as [[-> ->]|[[-> ->]|[ms [v [-> [L [B [T ->]]]]]]]];
        try reflexivity.
      now rewrite L, B, T.
Qed.

(** C10 as stated fails: the body null of a 200 response parses as JSON and
    [fetch] did not reject, yet the [catch] block runs, on the TypeError of
    reading [status] off [null]. *)
Lemma launch_ignores_http_status_counterexample :
  let o := Fulfilled (mkResponse 200 (lit "OK") (Normal (lit "null"))) in
  JSON_parse (lit "null") = Some VNull /\
  launch_try sample_host o page0 =
    Throw (mkError (lit "TypeError")
             (lit "Cannot read properties of null (reading 'status')")) /\
  replyEl_textContent (launch_resume sample_host o page0) =
    lit "Launch failed: Cannot read properties of null (reading 'status')" /\
  replyEl_color (launch_resume sample_host o page0) = color_error.
Proof.
  repeat split.
Qed.

(* ------------------------------------------------------------------ *)
(** ** Submissions in flight *)

Section InFlight.

Variable H : Host.

Lemma commands_in_flight_app (p : Page) (l : list pending) (q : pending) :
  commands_in_flight (mkWorld p (l ++ [q])) =
  (commands_in_flight (mkWorld p l) + (if is_command q then 1 else 0))%nat.
Proof.
  unfold commands_in_flight. simpl. rewrite filter_app, length_app. simpl.
  now destruct (is_command q).
Qed.

Lemma filter_remove_nth (l : list pending) (i : nat) (q : pending) :
  nth_error l i = Some q ->
  (List.length (filter is_command l) =
   List.length (filter is_command (remove_nth i l))
   + (if is_command q then 1 else 0))%nat.
Proof.
  revert i; induction l as [|x l IH]; intros [|i] E; simpl in E;
    try discriminate.
  - inversion E; subst. simpl. destruct (is_command q); simpl; lia.
  - apply IH in E. simpl. destruct (is_command x); simpl; lia.
Qed.

(** The launch listener leaves the send button alone. *)
Lemma launch_resume_disabled (o : outcome) (p : Page) :
  sendBtn_disabled (launch_resume H o p) = sendBtn_disabled p.
Proof.
  unfold launch_resume. rewrite launch_try_cases.
  destruct o as [r|e]; [|reflexivity].
  destruct (payload r) as [text|e]; [|reflexivity].
  destruct (JSON_parse text) as [[| |b|l|s|els|ms]|]; try reflexivity.
  destruct (lookup (lit "status") ms) as [v|]; [|reflexivity].
  destruct (ToBoolean H v); [|reflexivity].
  destruct (ToString_opt H v); reflexivity.
Qed.

(** A call of [sendCmd] adds at most one command, and a command it adds
    comes with the button disabled. *)
Lemma call_sendCmd_cases (w : World) :
  (commands_in_flight (call_sendCmd w) = commands_in_flight w /\
   sendBtn_disabled (page (call_sendCmd w)) = sendBtn_disabled (page w)) \/
  (commands_in_flight (call_sendCmd w) = S (commands_in_flight w) /\
   sendBtn_disabled (page (call_sendCmd w)) = true).
Proof.
  unfold call_sendCmd, sendCmd_start.
  destruct (is_empty (trim (input_value (page w)))).
  - left. split; reflexivity.
  - right. rewrite commands_in_flight_app. simpl. split; [|reflexivity].
    unfold commands_in_flight. simpl. lia.
Qed.

(** Through clicks alone submissions are serialized: as long as no Enter
    key is pressed, at most one command is in flight, and the button is
    disabled while it is. *)
Lemma step_guarded (w : World) (ev : event) :
  no_enter ev = true -> guarded w -> guarded (step H w ev).
Proof.
  intros NE G. destruct ev as [v| |key| | | |i o]; simpl.
  - exact G.
  - destruct (sendBtn_disabled (page w)) eqn:D; [exact G|].
    destruct G as [G|[_ G]]; [|congruence].
    unfold guarded.
    destruct (call_sendCmd_cases w) as [[C _]|[C B]]; rewrite C, G; auto.
  - simpl in NE. apply negb_true_iff in NE. now rewrite NE.
  - unfold guarded. rewrite commands_in_flight_app. simpl.
    unfold guarded, commands_in_flight in *. simpl. rewrite Nat.add_0_r. exact G.
  - exact G.
  - exact G.
  - destruct (nth_error (in_flight w) i) as [[r|r]|] eqn:E; [| |exact G].
    + apply filter_remove_nth in E. simpl in E.
      left. unfold guarded, commands_in_flight in *. simpl.
      destruct G as [G|[G _]]; lia.
    + apply filter_remove_nth in E. simpl in E.
      unfold guarded, commands_in_flight in *. simpl.
      rewrite launch_resume_disabled. rewrite Nat.add_0_r in E.
      rewrite <- E. exact G.
Qed.

Lemma clicks_are_serialized (evs : list event) (w : World) :
  forallb no_enter evs = true -> guarded w -> guarded (run H w evs).
Proof.
  revert w; induction evs as [|ev evs IH]; intros w NE G; [exact G|].
  simpl in NE. apply andb_prop in NE as [N1 N2].
  apply IH; [exact N2|]. now apply step_guarded.
Qed.

End InFlight.

(** A press of Enter with a command typed puts one more command request in
    flight, whatever the state of the button. *)
Lemma enter_adds_command (H : Host) (w : World) :
  trim (input_value (page w)) <> [] ->
  commands_in_flight (step H w (InputKeydown (lit "Enter")))
  = S (commands_in_flight w).
Proof.
  intros NB. simpl. unfold call_sendCmd, sendCmd_start.
  destruct (trim (input_value (page w))) as [|c cmd]; [congruence|].
  simpl is_empty. cbv iota. rewrite commands_in_flight_app. simpl.
  unfold commands_in_flight. simpl. lia.
Qed.

(** When a command request settles, whatever its outcome, the button is
    enabled. *)
Lemma settle_command_enables (H : Host) (w : World) (i : nat) (r : Request)
      (o : outcome) :
  nth_error (in_flight w) i = Some (PendingCommand r) ->
  sendBtn_disabled (page (step H w (Settle i o))) = false.
Proof.
  intros E. simpl. rewrite E. simpl.
  unfold sendCmd_resume. now destruct (sendCmd_try H o (page w)).
Qed.

(** C7 (the code departs from it). With a command typed, two presses of
    the Enter key in a row put two command requests in flight: the keydown
    listener calls [sendCmd] whether or not the button is disabled.  When
    the first of them settles the button is enabled again although the
    second is still in flight, and its reply has replaced the "thinking"
    status. *)
Theorem enter_twice_two_in_flight :
  let w := run sample_host world0
             [InputEdit (lit "hi"); InputKeydown (lit "Enter");
              InputKeydown (lit "Enter")] in
  in_flight w = [PendingCommand (command_request (lit "hi"));
                 PendingCommand (command_request (lit "hi"))] /\
  commands_in_flight w = 2%nat /\
  sendBtn_disabled (page w) = true /\
  replyEl_textContent (page w) = thinking /\
  let w' := step sample_host w
              (Settle 0 (Fulfilled (mkResponse 200 (lit "OK")
                                      (Normal (json_lit "{'reply': 'Hello'}"))))) in
  commands_in_flight w' = 1%nat /\
  sendBtn_disabled (page w') = false /\
  replyEl_textContent (page w') = lit "Hello".
Proof.
  repeat split.
Qed.

(* ------------------------------------------------------------------ *)
(** ** The request [sendCmd] sends *)

Section RequestBody.

Lemma hex_value_hex_digit (n : N) : n < 16 -> hex_value (hex_digit n) = Some n.
Proof.
  intros L. unfold hex_digit, hex_value, is_digit.
  destruct (n <? 10) eqn:E.
  - apply N.ltb_lt in E.
    replace ((48 <=? 48 + n) && (48 + n <=? 57)) with true
      by (symmetry; apply andb_true_iff; split; apply N.leb_le; lia).
    f_equal. lia.
  - apply N.ltb_ge in E.
    replace ((48 <=? 87 + n) && (87 + n <=? 57)) with false
      by (symmetry; apply andb_false_iff; right; apply N.leb_gt; lia).
    replace ((65 <=? 87 + n) && (87 + n <=? 70)) with false
      by (symmetry; apply andb_false_iff; right; apply N.leb_gt; lia).
    replace ((97 <=? 87 + n) && (87 + n <=? 102)) with true
      by (symmetry; apply andb_true_iff; split; apply N.leb_le; lia).
    f_equal. lia.
Qed.

Lemma hex4_unicode_escape (c : N) :
  c < 65536 ->
  hex4 (hex_digit ((c / 4096) mod 16)) (hex_digit ((c / 256) mod 16))
       (hex_digit ((c / 16) mod 16)) (hex_digit (c mod 16)) = Some c.
Proof.
  intros L. unfold hex4.
  rewrite !hex_value_hex_digit by (apply N.mod_lt; discriminate).
  f_equal.
  pose proof (N.div_mod c 16 ltac:(discriminate)) as E0.
  pose proof (N.mod_lt c 16 ltac:(discriminate)) as L0.
  pose proof (N.div_mod (c / 16) 16 ltac:(discriminate)) as E1.
  pose proof (N.mod_lt (c / 16) 16 ltac:(discriminate)) as L1.
  pose proof (N.div_mod (c / 256) 16 ltac:(discriminate)) as E2.
  pose proof (N.mod_lt (c / 256) 16 ltac:(discriminate)) as L2.
  pose proof (N.div_mod (c / 4096) 16 ltac:(discriminate)) as E3.
  pose proof (N.mod_lt (c / 4096) 16 ltac:(discriminate)) as L3.
  assert (D1 : c / 256 = c / 16 / 16) by (now rewrite N.Div0.div_div).
  assert (D2 : c / 4096 = c / 256 / 16) by (now rewrite N.Div0.div_div).
  assert (D3 : c / 4096 / 16 = 0).
  { rewrite N.Div0.div_div. apply N.div_small. exact L. }
  rewrite D3 in E3. rewrite <- D2 in E2. rewrite <- D1 in E1. lia.
Qed.

(** Reading back one quoted code unit. *)
Lemma lex_string_quote_unit (c : N) (acc tail : jsstring) :
  lex_string acc (quote_unit c ++ tail) = lex_string (c :: acc) tail.
Proof.
  unfold quote_unit.
  destruct (c =? 8) eqn:E1; [apply N.eqb_eq in E1; subst; reflexivity|].
  destruct (c =? 9) eqn:E2; [apply N.eqb_eq in E2; subst; reflexivity|].
  destruct (c =? 10) eqn:E3; [apply N.eqb_eq in E3; subst; reflexivity|].
  destruct (c =? 12) eqn:E4; [apply N.eqb_eq in E4; subst; reflexivity|].
  destruct (c =? 13) eqn:E5; [apply N.eqb_eq in E5; subst; reflexivity|].
  destruct (c =? 34) eqn:E6; [apply N.eqb_eq in E6; subst; reflexivity|].
  destruct (c =? 92) eqn:E7; [apply N.eqb_eq in E7; subst; reflexivity|].
  destruct ((c <? 32) || is_high_surrogate c || is_low_surrogate c) eqn:E8.
  - assert (L : c < 65536).
    { unfold is_high_surrogate, is_low_surrogate in E8.
      apply orb_true_iff in E8 as [E8|E8];
        [apply orb_true_iff in E8 as [E8|E8]|].
      - apply N.ltb_lt in E8. lia.
      - apply andb_true_iff in E8 as [_ E8]. apply N.leb_le in E8. lia.
      - apply andb_true_iff in E8 as [_ E8]. apply N.leb_le in E8. lia. }
    unfold unicode_escape. cbn [app lex_string].
    change (92 =? 34) with false. change (92 =? 92) with true.
    change (117 =? 117) with true. cbv iota.
    now rewrite (hex4_unicode_escape c L).
  - apply orb_false_iff in E8 as [E8 _]. apply orb_false_iff in E8 as [E8 _].
    cbn [app lex_string]. now rewrite E6, E7, E8.
Qed.

(** [JSON.parse] reads a quoted string back as it was. *)
Lemma lex_string_quote_units (s : jsstring) :
  forall acc rest,
    lex_string acc (quote_units s ++ 34 :: rest) = Parsed (rev acc ++ s) rest.
Proof.
  induction s as [s IH] using (well_founded_induction
                                 (Wf_nat.well_founded_ltof _ (@List.length N))).
  unfold Wf_nat.ltof in IH. intros acc rest.
  destruct s as [|c r].
  { simpl. now rewrite app_nil_r. }
  assert (One : lex_string acc ((quote_unit c ++ quote_units r) ++ 34 :: rest)
                = Parsed (rev acc ++ c :: r) rest).
  { rewrite <- app_assoc, lex_string_quote_unit, IH by (simpl; lia).
    simpl. now rewrite <- app_assoc. }
  cbn [quote_units].
  destruct (is_high_surrogate c) eqn:Hc; [|exact One].
  destruct r as [|d r']; [simpl in One; rewrite app_nil_r in One; exact One|].
  destruct (is_low_surrogate d) eqn:Hd; [|exact One].
  unfold is_high_surrogate in Hc. unfold is_low_surrogate in Hd.
  apply andb_true_iff in Hc as [Hc1 Hc2]. apply andb_true_iff in Hd as [Hd1 Hd2].
  apply N.leb_le in Hc1, Hc2, Hd1, Hd2.
  cbn [app lex_string].
  replace (c =? 34) with false by (symmetry; apply N.eqb_neq; lia).
  replace (c =? 92) with false by (symmetry; apply N.eqb_neq; lia).
  replace (c <? 32) with false by (symmetry; apply N.ltb_ge; lia).
  replace (d =? 34) with false by (symmetry; apply N.eqb_neq; lia).
  replace (d =? 92) with false by (symmetry; apply N.eqb_neq; lia).
  replace (d <? 32) with false by (symmetry; apply N.ltb_ge; lia).
  rewrite IH by (simpl; lia). simpl. now rewrite <- !app_assoc.
Qed.

(** The server reads the body back as an object whose only member is the
    command. *)
Lemma JSON_parse_stringify_command (cmd : jsstring) :
  JSON_parse (stringify_command cmd) = Some (VObject [(lit "command", VString cmd)]).
Proof.
  unfold JSON_parse.
  assert (F : exists n, parse_fuel (stringify_command cmd) = S (S (S n))).
  { unfold parse_fuel.
    exists (2 * List.length (stringify_command cmd) - 1)%nat.
    assert (0 < List.length (stringify_command cmd))%nat
      by (unfold stringify_command; rewrite length_app; simpl; lia).
    lia. }
  destruct F as [n F]. rewrite F. clear F.
  assert (T : stringify_command cmd
              = 123 :: 34 :: lit "command"
                ++ 34 :: 58 :: 34 :: quote_units cmd ++ 34 :: [125]).
  { unfold stringify_command, QuoteJSONString. simpl.
    now rewrite <- app_assoc. }
  rewrite T. clear T.
  assert (K : forall tail, lex_string [] (lit "command" ++ 34 :: tail)
                           = Parsed (lit "command") tail) by reflexivity.
  cbn [parse_value skip_ws is_ws N.eqb Pos.eqb orb].
  cbn [parse_members skip_ws is_ws N.eqb Pos.eqb orb].
  rewrite K.
  cbn [parse_value skip_ws is_ws N.eqb Pos.eqb orb].
  rewrite (lex_string_quote_units cmd [] [125]). reflexivity.
Qed.

End RequestBody.

Section TrimEnds.

Lemma trimStart_length (s : jsstring) :
  (List.length (trimStart s) <= List.length s)%nat.
Proof.
  induction s as [|c r IH]; simpl; [lia|].
  destruct (isWhiteSpace c); simpl; lia.
Qed.

(** [trimStart] changes nothing exactly when there is nothing or a first
    code unit that is not white space. *)
Lemma trimStart_fixed (s : jsstring) :
  trimStart s = s <->
  match s with [] => True | c :: _ => isWhiteSpace c = false end.
Proof.
  destruct s as [|c r]; simpl; [tauto|].
  destruct (isWhiteSpace c) eqn:E; [|tauto].
  split; [|discriminate].
  intros C. pose proof (trimStart_length r) as L. rewrite C in L. simpl in L. lia.
Qed.

Lemma trimStart_split (s : jsstring) :
  exists w, s = w ++ trimStart s.
Proof.
  induction s as [|c r [w IH]]; [now exists []|].
  simpl. destruct (isWhiteSpace c).
  - exists (c :: w). simpl. now rewrite <- IH.
  - now exists [].
Qed.

(** What [trim] returns has no white space left at either end. *)
Lemma trim_ends (s : jsstring) :
  trimStart (trim s) = trim s /\ trimEnd (trim s) = trim s.
Proof.
  split.
  - unfold trim, trimEnd.
    set (t := trimStart s).
    assert (Ft : trimStart t = t) by apply trimStart_idempotent.
    destruct (trimStart_split (rev t)) as [w Hw].
    set (u := trimStart (rev t)) in *.
    assert (Et : t = rev u ++ rev w).
    { rewrite <- rev_app_distr, <- Hw. now rewrite rev_involutive. }
    apply trimStart_fixed. apply trimStart_fixed in Ft.
    destruct (rev u) as [|h x] eqn:Er; [exact I|].
    rewrite Et in Ft. exact Ft.
  - unfold trim, trimEnd. rewrite rev_involutive.
    now rewrite trimStart_idempotent.
Qed.

End TrimEnds.

(** X1. Whenever [sendCmd] hands a request to [fetch], it is a POST to
    /api/command with the JSON content type, and [JSON.parse] reads its
    body back as an object whose only member, [command], is the input
    trimmed: a string that is not empty and has no white space at either
    end, whatever code units it holds. *)
Theorem sendCmd_request_carries_command (p p' : Page) (r : Request) :
  sendCmd_start p = (p', Some r) ->
  let cmd := trim (input_value p) in
  url r = lit "/api/command" /\
  method r = lit "POST" /\
  headers r = [(lit "Content-Type", lit "application/json")] /\
  (exists b, body r = Some b /\
             JSON_parse b = Some (VObject [(lit "command", VString cmd)])) /\
  cmd <> [] /\ trimStart cmd = cmd /\ trimEnd cmd = cmd.
Proof.
  intros E cmd. unfold sendCmd_start in E. fold cmd in E.
  destruct (is_empty cmd) eqn:B; [discriminate|].
  inversion E; subst. simpl.
  repeat split.
  - exists (stringify_command cmd). split; [reflexivity|].
    apply JSON_parse_stringify_command.
  - intros C. rewrite C in B. discriminate.
  - apply trim_ends.
  - apply trim_ends.
Qed.

Lemma sendCmd_request_carries_command_witness :
  let p := set_input_value (lit "  open youtube  ") page0 in
  exists p' r,
    sendCmd_start p = (p', Some r) /\
    (exists b, body r = Some b /\
               JSON_parse b
               = Some (VObject [(lit "command", VString (lit "open youtube"))])).
Proof.
  intros p.
  exists (fst (sendCmd_start p)), (command_request (lit "open youtube")).
  split; [reflexivity|].
  exact (proj1 (proj2 (proj2 (proj2
           (sendCmd_request_carries_command p _ _ eq_refl))))).
Defined.

(* ------------------------------------------------------------------ *)
(** ** What the listeners leave alone *)

Section Frames.

Variable H : Host.

Lemma showReply_frame (v : value) (isError : bool) (p p' : Page) :
  showReply H v isError p = Normal p' ->
  exists s, p' = showReply_string s isError p.
Proof.
  unfold showReply. destruct (to_DOMString H v) as [s|e]; simpl;
    [|discriminate].
  intros E. inversion E. now exists s.
Qed.

(** [sendCmd], once resumed, writes the reply area and enables the button,
    nothing else. *)
Lemma sendCmd_resume_frame (o : outcome) (p : Page) :
  exists s isError,
    sendCmd_resume H o p
    = set_sendBtn_disabled false (showReply_string s isError p).
Proof.
  unfold sendCmd_resume.
  destruct (sendCmd_try H o p) as [p'|e] eqn:E.
  - assert (F : exists s isError, p' = showReply_string s isError p).
    { unfold sendCmd_try in E. destruct o as [res|e]; [|discriminate].
      simpl in E. destruct (payload res) as [text|e]; [|discriminate].
      simpl in E. destruct (negb (ok res)).
      - destruct (ToString H (error_detail H (parse_or_null text) text res));
          [|discriminate].
        simpl in E. inversion E. eauto.
      - apply showReply_frame in E as [s E]. eauto. }
    destruct F as [s [isError ->]]. eauto.
  - unfold sendCmd_catch. eauto.
Qed.

(** The launch listener, once resumed, writes the reply area only. *)
Lemma launch_resume_frame (o : outcome) (p : Page) :
  exists s isError, launch_resume H o p = showReply_string s isError p.
Proof.
  unfold launch_resume. rewrite launch_try_cases.
  destruct o as [r|e]; [|unfold launch_catch; eauto].
  destruct (payload r) as [text|e]; [|unfold launch_catch; eauto].
  destruct (JSON_parse text) as [[| |b|l|s|els|ms]|];
    try (unfold launch_catch; eauto; fail).
  destruct (lookup (lit "status") ms) as [v|]; [|eauto].
  destruct (ToBoolean H v); [|eauto].
  destruct (ToString_opt H v); [eauto|unfold launch_catch; eauto].
Qed.

End Frames.

(* ------------------------------------------------------------------ *)
(** ** Invariants of the event loop *)



Lemma step_input_value (H : Host) (w : World) (ev : event) :
  input_value (page (step H w ev))
  = match ev with InputEdit v => v | _ => input_value (page w) end.
Proof.
  destruct ev as [v| |key| | | |i o]; simpl; try reflexivity.
  - destruct (sendBtn_disabled (page w)); [reflexivity|].
    unfold call_sendCmd, sendCmd_start.
    now destruct (is_empty (trim (input_value (page w)))).
  - destruct (JsString.eqb key (lit "Enter")); [|reflexivity].
    unfold call_sendCmd, sendCmd_start.
    now destruct (is_empty (trim (input_value (page w)))).
  - destruct (nth_error (in_flight w) i) as [[r|r]|]; [| |reflexivity]; cbn [page].
    + destruct (sendCmd_resume_frame H o (page w)) as [s [e ->]]. reflexivity.
    + destruct (launch_resume_frame H o (page w)) as [s [e ->]]. reflexivity.
Qed.

(** X3. The script never writes to the input: after any run of events the
    input holds what the user typed last.  In particular a command stays
    in the box after it has been sent and answered. *)
Theorem input_is_never_cleared (H : Host) (evs : list event) (w : World) :
  input_value (page (run H w evs)) = last_edit (input_value (page w)) evs.
Proof.
  revert w; induction evs as [|ev evs IH]; intros w; [reflexivity|].
  change (run H w (ev :: evs)) with (run H (step H w ev) evs).
  rewrite IH, step_input_value. now destruct ev.
Qed.

Lemma theme_color_showReply_string (s : jsstring) (isError : bool) (p : Page) :
  theme_color (showReply_string s isError p) = theme_color p.
Proof. reflexivity. Qed.

Lemma color_consistent_showReply_string (s : jsstring) (isError : bool) (p : Page) :
  color_consistent (showReply_string s isError p).
Proof.
  unfold color_consistent. destruct isError; [left|right]; reflexivity.
Qed.

(** X4. Once the reply area is in the error colour or in the accent of the
    body's theme, it stays so through every event: a reply is never left
    in the accent of the other theme. *)
Theorem reply_color_follows_theme (H : Host) (evs : list event) (w : World) :
  color_consistent (page w) -> color_consistent (page (run H w evs)).
Proof.
  revert w; induction evs as [|ev evs IH]; intros w C; [exact C|].
  change (run H w (ev :: evs)) with (run H (step H w ev) evs).
  apply IH. clear IH.
  destruct ev as [v| |key| | | |i o]; simpl; try exact C.
  - destruct (sendBtn_disabled (page w)); [exact C|].
    unfold call_sendCmd, sendCmd_start.
    destruct (is_empty (trim (input_value (page w)))); simpl;
      [left|right]; reflexivity.
  - destruct (JsString.eqb key (lit "Enter")); [|exact C].
    unfold call_sendCmd, sendCmd_start.
    destruct (is_empty (trim (input_value (page w)))); simpl;
      [left|right]; reflexivity.
  - right. reflexivity.
  - right. reflexivity.
  - destruct (nth_error (in_flight w) i) as [[r|r]|]; [| |exact C]; cbn [page].
    + destruct (sendCmd_resume_frame H o (page w)) as [s [e ->]].
      apply (color_consistent_showReply_string s e (page w)).
    + destruct (launch_resume_frame H o (page w)) as [s [e ->]].
      apply color_consistent_showReply_string.
Qed.

Lemma reply_color_follows_theme_witness :
  let w := step sample_host world0 ThemeChange in
  color_consistent (page w) /\
  color_consistent
    (page (run sample_host w
             [InputEdit (lit "hi"); InputKeydown (lit "Enter"); ThemeChange;
              Settle 0 (Fulfilled (mkResponse 200 (lit "OK") (Normal (lit "ok"))))])).
Proof.
  intros w.
  assert (C : color_consistent (page w)) by (right; reflexivity).
  split; [exact C|].
  exact (reply_color_follows_theme sample_host _ w C).
Defined.

(** X5. A change of the theme recolours whatever the reply area shows: an
    error message keeps its text but loses the error colour for the accent
    of the new theme. *)
Theorem toggle_drops_error_color (s : jsstring) (p : Page) :
  let q := toggle_change (showReply_string s true p) in
  replyEl_color (showReply_string s true p) = color_error /\
  replyEl_textContent q = s /\
  replyEl_color q = theme_color q /\
  replyEl_color q <> color_error.
Proof.
  repeat split.
  simpl. unfold theme_color.
  destruct (contains _ _); discriminate.
Qed.

Lemma contains_toggle_other (cl : classList) (token other : jsstring) :
  other <> token ->
  contains (toggle cl token) other = contains cl other.
Proof.
  intros NE. unfold toggle. destruct (contains cl token).
  - unfold contains. induction cl as [|t cl IH]; [reflexivity|].
    simpl. destruct (JsString.eqb token t) eqn:E; simpl.
    + apply eqb_eq in E. subst t.
      destruct (JsString.eqb other token) eqn:E2;
        [apply eqb_eq in E2; contradiction|exact IH].
    + now rewrite IH.
  - unfold contains. rewrite existsb_app. simpl.
    destruct (JsString.eqb other token) eqn:E2;
      [apply eqb_eq in E2; contradiction|].
    now rewrite !orb_false_r.
Qed.

(** X6. A change of the theme touches no class but "light", on the body
    and on the hero. *)
Theorem toggle_keeps_other_classes (p : Page) (token : jsstring) :
  token <> lit "light" ->
  contains (body_classList (toggle_change p)) token
    = contains (body_classList p) token /\
  contains (hero_classList (toggle_change p)) token
    = contains (hero_classList p) token.
Proof.
  intros NE. unfold toggle_change. simpl.
  split; now apply contains_toggle_other.
Qed.

Lemma toggle_keeps_other_classes_witness :
  let p := set_body_classList [lit "home"; lit "light"] page0 in
  lit "home" <> lit "light" /\
  contains (body_classList (toggle_change p)) (lit "home") = true.
Proof.
  intros p.
  assert (NE : lit "home" <> lit "light") by discriminate.
  split; [exact NE|].
  exact (proj1 (toggle_keeps_other_classes p (lit "home") NE)).
Defined.

(** X7. When the hero carries the class "light" exactly when the body
    does, this holds after every run of events: the two never fall out of
    step. *)
Theorem theme_stays_in_sync (H : Host) (evs : list event) (w : World) :
  theme_in_sync (page w) -> theme_in_sync (page (run H w evs)).
Proof.
  revert w; induction evs as [|ev evs IH]; intros w C; [exact C|].
  change (run H w (ev :: evs)) with (run H (step H w ev) evs).
  apply IH. clear IH.
  destruct ev as [v| |key| | | |i o]; simpl; try exact C.
  - destruct (sendBtn_disabled (page w)); [exact C|].
    unfold call_sendCmd, sendCmd_start.
    destruct (is_empty (trim (input_value (page w)))); exact C.
  - destruct (JsString.eqb key (lit "Enter")); [|exact C].
    unfold call_sendCmd, sendCmd_start.
    destruct (is_empty (trim (input_value (page w)))); exact C.
  - unfold theme_in_sync, toggle_change in *. simpl.
    rewrite !contains_toggle. now rewrite C.
  - destruct (nth_error (in_flight w) i) as [[r|r]|]; [| |exact C]; cbn [page].
    + destruct (sendCmd_resume_frame H o (page w)) as [s [e ->]]. exact C.
    + destruct (launch_resume_frame H o (page w)) as [s [e ->]]. exact C.
Qed.

Lemma theme_stays_in_sync_witness :
  theme_in_sync (page world0) /\
  theme_in_sync (page (run sample_host world0 [ThemeChange; LaunchClick; ThemeChange; ThemeChange])).
Proof.
  assert (C : theme_in_sync (page world0)) by reflexivity.
  split; [exact C|].
  exact (theme_stays_in_sync sample_host _ world0 C).
Defined.

(** X8. An empty [reply] is treated differently by the two branches: under
    a 2xx status the reply area is left empty, under any other status the
    empty reply is passed over and the raw body is shown after the status
    code. *)
Theorem empty_reply_asymmetry
  (H : Host) (st : N) (stText text : jsstring) (members : list (jsstring * value))
  (p : Page) :
  JSON_parse text = Some (VObject members) ->
  lookup (lit "reply") members = Some (VString []) ->
  replyEl_textContent
    (sendCmd_resume H (Fulfilled (mkResponse st stText (Normal text))) p)
  = if ok (mkResponse st stText (Normal text)) then []
    else lit "Server error " ++ of_N st ++ lit ": " ++ text.
Proof.
  intros P L.
  assert (NE : is_empty text = false).
  { destruct text; [|reflexivity]. discriminate. }
  destruct (ok (mkResponse st stText (Normal text))) eqn:O.
  - rewrite (sendCmd_resume_success H _ text p O eq_refl).
    unfold parse_or_null, success_reply. rewrite P. simpl. now rewrite L.
  - rewrite (sendCmd_resume_failure H _ text p O eq_refl).
    unfold parse_or_null, error_detail, or_else. rewrite P. simpl. rewrite L.
    simpl. now rewrite NE.
Qed.

Lemma empty_reply_asymmetry_witness :
  let text := json_lit "{'reply': ''}" in
  JSON_parse text = Some (VObject [(lit "reply", VString [])]) /\
  replyEl_textContent
    (sendCmd_resume sample_host
       (Fulfilled (mkResponse 200 (lit "OK") (Normal text))) page0) = [] /\
  replyEl_textContent
    (sendCmd_resume sample_host
       (Fulfilled (mkResponse 400 (lit "Bad Request") (Normal text))) page0)
  = lit "Server error 400: " ++ text.
Proof.
  intros text. split; [reflexivity|]. split.
  - exact (empty_reply_asymmetry sample_host 200 (lit "OK") text _ page0
             eq_refl eq_refl).
  - exact (empty_reply_asymmetry sample_host 400 (lit "Bad Request") text _ page0
             eq_refl eq_refl).
Defined.

(** X9. Through clicks alone submissions are serialized: in a run without
    a press of Enter, started with no command in flight, at most one
    command request is in flight at any time, and the button is disabled
    while one is. *)
Theorem clicks_never_overlap (H : Host) (evs : list event) (w : World) :
  forallb no_enter evs = true ->
  commands_in_flight w = 0%nat ->
  (commands_in_flight (run H w evs) <= 1)%nat /\
  (commands_in_flight (run H w evs) = 1%nat ->
   sendBtn_disabled (page (run H w evs)) = true).
Proof.
  intros NE Z.
  assert (G : guarded (run H w evs)).
  { apply clicks_are_serialized; [exact NE|]. now left. }
  destruct G as [G|[G D]]; rewrite G; split; try lia; auto; discriminate.
Qed.

Lemma clicks_never_overlap_witness :
  let evs := [InputEdit (lit "hi"); SendClick; SendClick; LaunchClick; SendClick] in
  forallb no_enter evs = true /\
  commands_in_flight world0 = 0%nat /\
  (commands_in_flight (run sample_host world0 evs) <= 1)%nat.
Proof.
  intros evs. split; [reflexivity|]. split; [reflexivity|].
  exact (proj1 (clicks_never_overlap sample_host evs world0 eq_refl eq_refl)).
Defined.

(* ------------------------------------------------------------------ *)
(** ** The navigation bar *)

Section NavFacts.

Lemma eqb_neq (a b : jsstring) : a <> b -> JsString.eqb a b = false.
Proof.
  intros NE. destruct (JsString.eqb a b) eqn:E; [|reflexivity].
  apply eqb_eq in E. contradiction.
Qed.

Lemma contains_add (cl : classList) (token : jsstring) :
  contains (add cl token) token = true.
Proof.
  unfold add. destruct (contains cl token) eqn:E; [exact E|].
  unfold contains. rewrite existsb_app. simpl.
  now rewrite eqb_refl, orb_true_r.
Qed.

Lemma contains_remove (cl : classList) (token : jsstring) :
  contains (remove cl token) token = false.
Proof.
  unfold remove, contains. apply not_true_is_false. intros C.
  apply existsb_exists in C as [t [Hin Ht]].
  apply filter_In in Hin as [_ Hn]. now rewrite Ht in Hn.
Qed.

Lemma contains_add_other (cl : classList) (token other : jsstring) :
  other <> token -> contains (add cl token) other = contains cl other.
Proof.
  intros NE. unfold add. destruct (contains cl token); [reflexivity|].
  unfold contains. rewrite existsb_app. simpl.
  now rewrite (eqb_neq _ _ NE), !orb_false_r.
Qed.

Lemma contains_remove_other (cl : classList) (token other : jsstring) :
  other <> token -> contains (remove cl token) other = contains cl other.
Proof.
  intros NE. unfold remove, contains.
  induction cl as [|t cl IH]; [reflexivity|].
  simpl. destruct (JsString.eqb token t) eqn:E; simpl.
  - apply eqb_eq in E. subst t. now rewrite (eqb_neq _ _ NE).
  - now rewrite IH.
Qed.

Lemma add_idempotent (cl : classList) (token : jsstring) :
  add (add cl token) token = add cl token.
Proof.
  unfold add at 1. now rewrite contains_add.
Qed.

Lemma remove_idempotent (cl : classList) (token : jsstring) :
  remove (remove cl token) token = remove cl token.
Proof.
  unfold remove. induction cl as [|t cl IH]; [reflexivity|].
  simpl. destruct (negb (JsString.eqb token t)) eqn:E; [|exact IH].
  simpl. now rewrite E, IH.
Qed.

Variable H : Host.
Variable querySelector : jsstring -> completion (option Box).

(** The loop over links that all resolve, one link at a time. *)
Lemma spy_resolved (fromTop : Q) (links : list NavLink) :
  Forall (resolves querySelector) links ->
  snd (spy H querySelector fromTop links) = None /\
  forall (i : nat) (link : NavLink) (section : Box),
    nth_error links i = Some link ->
    querySelector (selector link) = Normal (Some section) ->
    nth_error (fst (spy H querySelector fromTop links)) i
    = Some (set_link_classList
              (if in_view fromTop section
               then add (link_classList link) (lit "active")
               else remove (link_classList link) (lit "active")) link).
Proof.
  induction 1 as [|l links [section Hl] _ [IHs IHn]]; simpl.
  - split; [reflexivity|]. intros [|i]; discriminate.
  - rewrite Hl. destruct (spy H querySelector fromTop links) as [rest' thrown] eqn:E.
    simpl in *. split; [exact IHs|].
    intros [|i] link section' Hn Hq; simpl in *.
    + inversion Hn; subst. rewrite Hl in Hq. now inversion Hq.
    + now apply IHn.
Qed.


End NavFacts.

(** X10. When every link's selector finds a section, the scroll listener
    ends without an exception and leaves each link with the class "active"
    exactly when [fromTop] lies within its section, from [offsetTop]
    (included) to [offsetTop + offsetHeight] (excluded); the link's [href]
    and its other classes are as before. *)
Theorem spy_marks_sections_in_view
  (H : Host) (querySelector : jsstring -> completion (option Box))
  (fromTop : Q) (links : list NavLink) :
  Forall (resolves querySelector) links ->
  snd (spy H querySelector fromTop links) = None /\
  forall (i : nat) (link : NavLink) (section : Box),
    nth_error links i = Some link ->
    querySelector (selector link) = Normal (Some section) ->
    exists link',
      nth_error (fst (spy H querySelector fromTop links)) i = Some link' /\
      href link' = href link /\
      (is_active link' = true <->
       (inject_Z (offsetTop section) <= fromTop
        /\ fromTop < inject_Z (offsetTop section + offsetHeight section))%Q) /\
      forall token, token <> lit "active" ->
        contains (link_classList link') token
        = contains (link_classList link) token.
Proof.
  intros R. destruct (spy_resolved H querySelector fromTop links R) as [S N].
  split; [exact S|].
  intros i link section Hn Hq. eexists. split; [exact (N i link section Hn Hq)|].
  split; [reflexivity|]. unfold is_active. simpl.
  split.
  - unfold in_view.
    destruct (Qle_bool (inject_Z (offsetTop section)) fromTop) eqn:A;
      destruct (Qle_bool (inject_Z (offsetTop section + offsetHeight section))
                         fromTop) eqn:B; simpl;
      rewrite ?contains_add, ?contains_remove.
    + split; [discriminate|]. intros [_ C]. apply Qle_bool_iff in B.
      exfalso. apply (Qlt_not_le _ _ C B).
    + split; [|reflexivity]. intros _. apply Qle_bool_iff in A.
      split; [exact A|]. apply Qnot_le_lt. intros C.
      apply Qle_bool_iff in C. congruence.
    + split; [discriminate|]. intros [C _]. apply Qle_bool_iff in C. congruence.
    + split; [discriminate|]. intros [C _]. apply Qle_bool_iff in C. congruence.
  - intros token NE.
    destruct (in_view fromTop section);
      [now apply contains_add_other|now apply contains_remove_other].
Qed.


(** X12. Running the scroll listener twice at the same position changes
    nothing the second time, whether or not it ends on an exception. *)
Theorem spy_idempotent
  (H : Host) (querySelector : jsstring -> completion (option Box))
  (fromTop : Q) (links : list NavLink) :
  spy H querySelector fromTop (fst (spy H querySelector fromTop links))
  = spy H querySelector fromTop links.
Proof.
  induction links as [|l links IH]; [reflexivity|].
  simpl. destruct (querySelector (selector l)) as [[section|]|e] eqn:Q.
  - destruct (spy H querySelector fromTop links) as [rest' thrown] eqn:E.
    simpl in *. unfold selector at 1. simpl. fold (selector l). rewrite Q.
    rewrite IH.
    destruct (in_view fromTop section);
      [rewrite add_idempotent|rewrite remove_idempotent]; reflexivity.
  - simpl. now rewrite Q.
  - simpl. now rewrite Q.
Qed.

Lemma spy_marks_sections_in_view_witness :
  Forall (resolves sample_document) sample_links /\
  snd (spy sample_host sample_document (inject_Z 650) sample_links) = None.
Proof.
  assert (R : Forall (resolves sample_document) sample_links).
  { repeat constructor; eexists; reflexivity. }
  split; [exact R|].
  exact (proj1 (spy_marks_sections_in_view sample_host sample_document
                  (inject_Z 650) sample_links R)).
Defined.






